(** * deenurp: reference selection (select.py) and the search_sequences action

    A shallow embedding of [deenurp/select.py] and of the [action] of
    [deenurp/subcommands/search_sequences.py].

    External programs are functions of their inputs returning an exit status
    and an output; every invocation, log record and generator [yield] is
    written to a trace, so that what was run, and in which order, can be
    stated.  Exceptions are values of [exn].  SQL numbers are exact
    rationals. *)

From Stdlib Require Import ZArith QArith Qminmax.
From stdpp Require Import gmap strings list fin_maps sorting.

Local Open Scope Z_scope.

(** ** Data model *)

(** Values stored in [SeqRecord.annotations]. *)
Inductive annot : Type :=
  | AStr (s : string)
  | ANum (q : Q).

(** [Bio.SeqRecord.SeqRecord]: identifier, residues, annotation dict. *)
Record SeqRecord : Type := mkSeqRecord {
  rec_id : string;
  rec_seq : string;
  annotations : gmap string annot
}.

(** [ref.annotations.update({...})] *)
Definition annotations_update (r : SeqRecord) (kvs : list (string * annot))
  : SeqRecord :=
  {| rec_id := rec_id r; rec_seq := rec_seq r;
     annotations := foldl (fun d kv => <[kv.1 := kv.2]> d) (annotations r) kvs |}.

(** External programs and [wrap] helpers that the module runs. *)
Inductive tool : Type :=
  | Usearch | Cmalign | AsRefpkg | RedupfileOfSeqs | Pplacer | GuppyRedup
  | Voronoi | EslSfetch.

Inductive exn : Type :=
  | CalledProcessError (cmd : tool) (returncode : Z)
  | AssertionError
  | ZeroDivisionError
  | TypeError
  | KeyError (key : string)
  | OtherError (class_name : string).

(** [seqrecord(name, residues, **annotations)].  The keyword arguments are
    the pairs of [anns]; Python binds them before the body runs and raises
    [TypeError] for a keyword called [name] or [residues] (a second value
    for a positional parameter) and for a keyword given twice. *)
Definition seqrecord (name residues : string) (anns : list (string * annot))
  : exn + SeqRecord :=
  if bool_decide (NoDup anns.*1 /\
                  ("name"%string ∉ anns.*1) /\ ("residues"%string ∉ anns.*1))
  then inr {| rec_id := name; rec_seq := residues;
              annotations := foldl (fun d kv => <[kv.1 := kv.2]> d) ∅ anns |}
  else inl TypeError.

(** What the program does to the outside, in order. *)
Inductive event : Type :=
  | Invoke (t : tool)
  | LogClustered (before after : nat)
  | LogSkipping (cluster_name : string) (pct : Q)
  | LogCluster (cluster_name : string) (pct : Q) (hits : nat)
  | Yield (r : SeqRecord)
  | SqliteConnect (path : string)
  | DedupInfoToCounts (contents : string)
  | CreateDatabase (sequence_file : string)
      (weights : option (gmap string Z)) (quiet : bool).

(** The value [select_sequences_for_cluster] returns: a list on the early
    return, a frozenset after pruning. *)
Inductive id_collection : Type :=
  | IdList (l : list string)
  | IdSet (s : gset string).

(** [x in ids] *)
Definition id_in (x : string) (ids : id_collection) : bool :=
  match ids with
  | IdList l => bool_decide (x ∈ l)
  | IdSet s => bool_decide (x ∈ s)
  end.

(** [len(ids)] *)
Definition id_len (ids : id_collection) : nat :=
  match ids with
  | IdList l => length l
  | IdSet s => size s
  end.

(** The clusters the loop of [choose_references] reached, read off the log:
    each with the percentage logged for it. *)
Definition logged (t : list event) : list (string * Q) :=
  omap (fun e => match e with
                 | LogSkipping c pct => Some (c, pct)
                 | LogCluster c pct _ => Some (c, pct)
                 | _ => None
                 end) t.

(** The records the generator yielded. *)
Definition yielded (t : list event) : list SeqRecord :=
  omap (fun e => match e with Yield r => Some r | _ => None end) t.

(** The programs run. *)
Definition invoked (t : list event) : list tool :=
  omap (fun e => match e with Invoke tl => Some tl | _ => None end) t.

(** A trace with no cluster log record and no yield. *)
Definition quiet (t : list event) : Prop := logged t = [] /\ yielded t = [].

(** ** Trace and exception monad *)

Definition M (A : Type) : Type := (list event * (exn + A))%type.

Definition ret {A} (x : A) : M A := ([], inr x).

Definition raise {A} (e : exn) : M A := ([], inl e).

Definition bind {A B} (m : M A) (k : A -> M B) : M B :=
  match m.2 with
  | inl e => (m.1, inl e)
  | inr a => (m.1 ++ (k a).1, (k a).2)
  end.

Definition emit (e : event) : M unit := ([e], inr tt).

Notation "x <- m ;; k" := (bind m (fun x => k))
  (at level 100, m at next level, right associativity).
Notation "m ;;; k" := (bind m (fun _ => k))
  (at level 100, right associativity).

(** [assert b] *)
Definition py_assert (b : bool) : M unit :=
  if b then ret tt else raise AssertionError.

(** [subprocess.check_call]: the command runs once; a non-zero return code
    raises [CalledProcessError]. *)
Definition check_call {A} (t : tool) (r : Z * A) : M A :=
  emit (Invoke t) ;;;
  if r.1 =? 0 then ret r.2 else raise (CalledProcessError t r.1).

(** A [for] loop whose body may raise. *)
Fixpoint mapM {A B} (f : A -> M B) (l : list A) : M (list B) :=
  match l with
  | [] => ret []
  | x :: xs => y <- f x ;; ys <- mapM f xs ;; ret (y :: ys)
  end.

(** ** Numbers *)

Definition Qlt_bool (a b : Q) : bool := negb (Qle_bool b a).

(** [a / b] where [b] is what [cursor.fetchone()[0]] gave: [None] for SQL
    NULL. *)
Definition py_div (a : Q) (b : option Q) : M Q :=
  match b with
  | None => raise TypeError
  | Some d => if Qeq_bool d 0 then raise ZeroDivisionError else ret (a / d)%Q
  end.

Definition DEFAULT_THREADS : Z := 12.
Definition CLUSTER_THRESHOLD : Q := (998 # 1000)%Q.

(** ** The store *)

(** The tables and views of the search database that [select.py] reads,
    with the parameters [search.load_params] returns and the rows of the
    cluster-info CSV file they name. *)
Record Db : Type := mkDb {
  sequences : list (string * Q);             (* name, weight *)
  vw_cluster_weights : list (string * Q);    (* cluster_name, total_weight *)
  best_hit_seqs : string -> list (string * Q);
  fasta_file : string;
  ref_fasta : string;
  ref_cluster_names : list (string * string) (* cluster, seqname *)
}.

(** [a] comes no later than [b] under [ORDER BY total_weight DESC]. *)
Definition weight_desc (a b : string * Q) : Prop := (b.2 <= a.2)%Q.

(** [ORDER BY total_weight DESC] *)
Fixpoint insert_desc (r : string * Q) (l : list (string * Q))
  : list (string * Q) :=
  match l with
  | [] => [r]
  | x :: xs => if Qle_bool x.2 r.2 then r :: x :: xs else x :: insert_desc r xs
  end.

Definition order_by_total_weight_desc (rows : list (string * Q))
  : list (string * Q) :=
  foldr insert_desc [] rows.

(** [SELECT SUM(weight) FROM sequences]: NULL over no rows. *)
Definition get_total_weight (con : Db) : option Q :=
  match sequences con with
  | [] => None
  | rows => Some (foldl (fun acc r => acc + r.2)%Q 0%Q rows)
  end.

(** [cluster_hit_seqs]: the rows of the DISTINCT join for one cluster. *)
Definition cluster_hit_seqs (con : Db) (cluster_name : string)
  : list (string * Q) :=
  best_hit_seqs con cluster_name.

(** [dict(pairs)]: a later pair replaces an earlier one. *)
Definition dict_of_pairs (l : list (string * Q)) : gmap string Q :=
  foldl (fun d kv => <[kv.1 := kv.2]> d) ∅ l.

(** [fetch_cluster_members]: a [defaultdict(list)] filled row by row. *)
Definition fetch_cluster_members (rows : list (string * string))
  : gmap string (list string) :=
  foldl (fun d r => <[r.1 := (d !!! r.1) ++ [r.2]]> d) ∅ rows.

(** ** External programs *)

(** The capability interface to the external programs.

    [usearch_run] is [usearch -cluster fp -seedsout ntf ...]: the return code
    and the records parsed from the seeds file.

    Modelled from the spec: the helpers of [deenurp/wrap.py] ([cmalign],
    [as_refpkg], [redupfile_of_seqs], [pplacer], [guppy_redup], [voronoi],
    [esl_sfetch]) are not among the sources.  Each runs its program once on
    the given inputs and a non-zero exit is a fatal process error; here each
    gives a return code and an output, passed to [check_call]. *)
Class ExternalTools : Type := {
  Refpkg : Type;
  RedupFile : Type;
  Jplace : Type;
  usearch_run : list SeqRecord -> Q -> Z * list SeqRecord;
  cmalign_run : list SeqRecord -> option (list string) -> Z * list SeqRecord;
  as_refpkg_run : list SeqRecord -> Z -> Z * Refpkg;
  redupfile_of_seqs_run : list SeqRecord -> Z * RedupFile;
  pplacer_run : Refpkg -> list SeqRecord -> Z -> Z * Jplace;
  guppy_redup_run : Jplace -> RedupFile -> Z * Jplace;
  voronoi_run : Jplace -> Z -> Z * list string;
  esl_sfetch_run : string -> list string -> Z * list SeqRecord
}.

(** ** select.py *)

Section Select.

Context {tools : ExternalTools}.

Definition _cluster (sequences : list SeqRecord) (threshold : Q)
  : M (list SeqRecord) :=
  seeds <- check_call Usearch (usearch_run sequences threshold) ;;
  let r : gset string := list_to_set (rec_id <$> seeds) in
  emit (LogClustered (length sequences) (size r)) ;;;
  ret (filter (fun i => rec_id i ∈ r) sequences).

(** The identifiers [usearch] reported as seeds: the [r] of [_cluster]. *)
Definition seed_ids (sequences : list SeqRecord) (threshold : Q)
  : gset string :=
  list_to_set (rec_id <$> (usearch_run sequences threshold).2).

(** The [with] block of [select_sequences_for_cluster]: alignment,
    reference package, placement, redup and pruning; its value is
    [prune_leaves].  [ref_seqs] is the clustered list. *)
Definition prune_leaves_of
    (ref_seqs query_seqs : list SeqRecord) (keep_leaves : Z)
    (threads : Z) (mpi_args : option (list string)) : M (gset string) :=
  let c := ref_seqs ++ query_seqs in
  let ref_ids : gset string := list_to_set (rec_id <$> ref_seqs) in
  aligned <- check_call Cmalign (cmalign_run c mpi_args) ;;
  rp <- check_call AsRefpkg
          (as_refpkg_run (filter (fun i => rec_id i ∈ ref_ids) aligned)
                         threads) ;;
  redup_path <- check_call RedupfileOfSeqs
                  (redupfile_of_seqs_run query_seqs) ;;
  jplace <- check_call Pplacer (pplacer_run rp aligned threads) ;;
  redup_jplace <- check_call GuppyRedup
                    (guppy_redup_run jplace redup_path) ;;
  leaves <- check_call Voronoi (voronoi_run redup_jplace keep_leaves) ;;
  ret (list_to_set leaves).

Definition select_sequences_for_cluster
    (ref_seqs query_seqs : list SeqRecord) (keep_leaves : Z)
    (threads : Z) (mpi_args : option (list string)) : M id_collection :=
  ref_seqs <- _cluster ref_seqs CLUSTER_THRESHOLD ;;
  if Z.of_nat (length ref_seqs) <=? keep_leaves then
    ret (IdList (rec_id <$> ref_seqs))
  else
    prune_leaves <- prune_leaves_of ref_seqs query_seqs keep_leaves
                      threads mpi_args ;;
    let result : gset string :=
      list_to_set (rec_id <$> ref_seqs) ∖ prune_leaves in
    py_assert (Z.of_nat (size result) =? keep_leaves) ;;;
    ret (IdSet result).

Definition esl_sfetch_seqs (sequence_file : string)
    (sequence_names : list string) : M (list SeqRecord) :=
  check_call EslSfetch (esl_sfetch_run sequence_file sequence_names).

(** [i.annotations['weight'] = cluster_seq_names[i.id]] *)
Definition set_weight (cluster_seq_names : gmap string Q) (i : SeqRecord)
  : M SeqRecord :=
  match cluster_seq_names !! rec_id i with
  | None => raise (KeyError (rec_id i))
  | Some w => ret (annotations_update i [("weight"%string, ANum w)])
  end.

(** [ref.annotations.update({'cluster_name': ..., 'weight_prop': ...})] *)
Definition annotate_ref (cluster_name : string) (weight_prop : Q)
    (ref : SeqRecord) : SeqRecord :=
  annotations_update ref
    [("cluster_name"%string, AStr cluster_name);
     ("weight_prop"%string, ANum weight_prop)].

Section Choose.

Variable deenurp_db : Db.
Variables (refs_per_cluster threads : Z) (min_cluster_prop : Q)
          (mpi_args : option (list string)).

(** One pass through the body of the [for] loop of [choose_references];
    the result says whether the loop goes on ([false] is [break]).  The
    quotient [cluster_weight / total_weight] the source writes out at each
    use is computed once. *)
Definition choose_body (total_weight : option Q)
    (cluster_members : gmap string (list string))
    (row : string * Q) : M bool :=
  let cluster_name := row.1 in
  let cluster_weight := row.2 in
  let cluster_seq_names :=
    dict_of_pairs (cluster_hit_seqs deenurp_db cluster_name) in
  cluster_refs <- esl_sfetch_seqs (ref_fasta deenurp_db)
                    (cluster_members !!! cluster_name) ;;
  query_seqs <- esl_sfetch_seqs (fasta_file deenurp_db)
                  (map_to_list cluster_seq_names).*1 ;;
  query_seqs <- mapM (set_weight cluster_seq_names) query_seqs ;;
  prop <- py_div cluster_weight total_weight ;;
  if Qlt_bool prop min_cluster_prop then
    emit (LogSkipping cluster_name (prop * 100)%Q) ;;;
    ret false
  else
    emit (LogCluster cluster_name (prop * 100)%Q
            (size cluster_seq_names)) ;;;
    ref_names <- select_sequences_for_cluster cluster_refs query_seqs
                   refs_per_cluster threads mpi_args ;;
    let refs := filter (fun i => id_in (rec_id i) ref_names = true)
                  cluster_refs in
    mapM (fun ref => emit (Yield (annotate_ref cluster_name prop ref)))
         refs ;;;
    ret true.

Fixpoint choose_loop (total_weight : option Q)
    (cluster_members : gmap string (list string))
    (rows : list (string * Q)) : M unit :=
  match rows with
  | [] => ret tt
  | row :: rest =>
      go_on <- choose_body total_weight cluster_members row ;;
      if go_on : bool then choose_loop total_weight cluster_members rest
      else ret tt
  end.

(** The generator run to its end: the trace holds the yielded records. *)
Definition choose_references : M unit :=
  let total_weight := get_total_weight deenurp_db in
  let cluster_members :=
    fetch_cluster_members (ref_cluster_names deenurp_db) in
  choose_loop total_weight cluster_members
    (order_by_total_weight_desc (vw_cluster_weights deenurp_db)).

End Choose.

End Select.

(** ** subcommands/search_sequences.py *)

(** The parsed command line; [weights] holds what the opened file contains
    when [--weights] was given. *)
Record Args : Type := mkArgs {
  sequence_file : string;
  output : string;
  ref_database : string;
  ref_meta : string;
  ref_cluster_info : string;
  weights : option string;
  maxaccepts : Z;
  maxrejects : Z;
  search_identity : Q;
  verbosity : Z
}.

(** [deenurp/search.py] is not among the sources: its parser of dedup files is
    taken as given, [None] standing for a parse that returns [None]. *)
Class SearchModule : Type := {
  dedup_info_to_counts : string -> option (gmap string Z)
}.

(** The truth value of [weights]: [None] and the empty dict are false. *)
Definition truthy (w : option (gmap string Z)) : bool :=
  match w with
  | None => false
  | Some m => negb (bool_decide (m = ∅))
  end.

Definition action {search : SearchModule} (args : Args) : M unit :=
  emit (SqliteConnect (output args)) ;;;
  weights <- match weights args with
             | Some fp =>
                 emit (DedupInfoToCounts fp) ;;;
                 let weights := dedup_info_to_counts fp in
                 py_assert (truthy weights) ;;;
                 ret weights
             | None => ret None
             end ;;
  emit (CreateDatabase (sequence_file args) weights (verbosity args =? 0)).

(** ** Small instances to run the definitions on *)

Definition rec_of (name : string) : SeqRecord :=
  {| rec_id := name; rec_seq := "ACGT"; annotations := ∅ |}.

(** Programs that all exit zero: [usearch] keeps the records named in
    [seeds], [rppr] prunes [prune], [esl-sfetch] returns one record per
    name. *)
Definition demo_tools (seeds prune : list string) : ExternalTools := {|
  Refpkg := unit;
  RedupFile := unit;
  Jplace := unit;
  usearch_run := fun l _ => (0, filter (fun i => rec_id i ∈ seeds) l);
  cmalign_run := fun l _ => (0, l);
  as_refpkg_run := fun _ _ => (0, tt);
  redupfile_of_seqs_run := fun _ => (0, tt);
  pplacer_run := fun _ _ _ => (0, tt);
  guppy_redup_run := fun _ _ => (0, tt);
  voronoi_run := fun _ _ => (0, prune);
  esl_sfetch_run := fun _ names => (0, rec_of <$> names)
|}.

(** As [demo_tools], with [usearch] exiting with status 1. *)
Definition failing_usearch : ExternalTools := {|
  Refpkg := unit;
  RedupFile := unit;
  Jplace := unit;
  usearch_run := fun _ _ => (1, []);
  cmalign_run := fun l _ => (0, l);
  as_refpkg_run := fun _ _ => (0, tt);
  redupfile_of_seqs_run := fun _ => (0, tt);
  pplacer_run := fun _ _ _ => (0, tt);
  guppy_redup_run := fun _ _ => (0, tt);
  voronoi_run := fun _ _ => (0, []);
  esl_sfetch_run := fun _ names => (0, rec_of <$> names)
|}.

Definition abc : list SeqRecord := [rec_of "a"; rec_of "b"; rec_of "c"].

(** Two clusters, [big] with three references and weight 6 of 8, [small]
    with one reference and weight 2 of 8. *)
Definition demo_db : Db := {|
  sequences := [("q1", 3%Q); ("q2", 3%Q); ("q3", 2%Q)];
  vw_cluster_weights := [("small", 2%Q); ("big", 6%Q)];
  best_hit_seqs := fun c =>
    if String.eqb c "big" then [("q1", 3%Q); ("q2", 3%Q)]
    else if String.eqb c "small" then [("q3", 2%Q)] else [];
  fasta_file := "queries.fasta";
  ref_fasta := "refs.fasta";
  ref_cluster_names :=
    [("big", "a"); ("big", "b"); ("small", "d"); ("big", "c")]
|}.

(** The same store with no row in [sequences]. *)
Definition empty_sequences_db : Db := {|
  sequences := [];
  vw_cluster_weights := vw_cluster_weights demo_db;
  best_hit_seqs := best_hit_seqs demo_db;
  fasta_file := fasta_file demo_db;
  ref_fasta := ref_fasta demo_db;
  ref_cluster_names := ref_cluster_names demo_db
|}.

Definition empty_weights : SearchModule :=
  {| dedup_info_to_counts := fun _ => Some ∅ |}.

Definition demo_args : Args := {|
  sequence_file := "q.fasta"; output := "out.db"; ref_database := "r.fasta";
  ref_meta := "r.csv"; ref_cluster_info := "c.csv"; weights := Some "";
  maxaccepts := 5; maxrejects := 40; search_identity := (97 # 100)%Q;
  verbosity := 0
|}.


(** The programs the [with] block of [select_sequences_for_cluster] runs,
    in the order it runs them. *)
Definition placement_tools : list tool :=
  [Cmalign; AsRefpkg; RedupfileOfSeqs; Pplacer; GuppyRedup; Voronoi].

(** The last binding of key [k] in a list of pairs. *)
Definition last_binding {V} (k : string) (l : list (string * V)) : option V :=
  snd <$> last (filter (fun kv => kv.1 = k) l).

(** A computation that runs the programs of [tools] one after the other and
    stops at the first that exits non-zero: its trace is the invocations
    alone, a value means all of them ran, and an exception is the
    [CalledProcessError] of the program invoked last. *)
Definition runs_in_order {A} (tools : list tool) (m : M A) : Prop :=
  m.1 = Invoke <$> invoked m.1 /\
  invoked m.1 `prefix_of` tools /\
  (forall a, m.2 = inr a -> invoked m.1 = tools) /\
  (forall e, m.2 = inl e ->
     exists tl code, e = CalledProcessError tl code /\ code <> 0 /\
                     last (invoked m.1) = Some tl).

(** What [set_weight] does to one query sequence found in the hit dict. *)
Definition weight_set (d : gmap string Q) (i i' : SeqRecord) : Prop :=
  exists w, d !! rec_id i = Some w /\
            i' = annotations_update i [("weight"%string, ANum w)].

(** The number under the [weight_prop] annotation of a record. *)
Definition weight_prop_of (r : SeqRecord) : option Q :=
  match annotations r !! "weight_prop" with
  | Some (ANum q) => Some q
  | _ => None
  end.

(** [a] is yielded no later than [b] when ordered by falling
    [weight_prop]. *)
Definition prop_desc (a b : SeqRecord) : Prop :=
  exists p q, weight_prop_of a = Some p /\ weight_prop_of b = Some q /\
              (q <= p)%Q.

(** An event other than the log record of a skipped cluster. *)
Definition not_skipping (e : event) : Prop :=
  match e with LogSkipping _ _ => False | _ => True end.

(** As [demo_tools], but the fetch from the query file returns a record
    named [zz] whatever was asked for. *)
Definition stray_fetch : ExternalTools := {|
  Refpkg := unit;
  RedupFile := unit;
  Jplace := unit;
  usearch_run := fun l _ => (0, l);
  cmalign_run := fun l _ => (0, l);
  as_refpkg_run := fun _ _ => (0, tt);
  redupfile_of_seqs_run := fun _ => (0, tt);
  pplacer_run := fun _ _ _ => (0, tt);
  guppy_redup_run := fun _ _ => (0, tt);
  voronoi_run := fun _ _ => (0, []);
  esl_sfetch_run := fun file names =>
    (0, if String.eqb file "queries.fasta" then [rec_of "zz"]
        else rec_of <$> names)
|}.

(** A parser of weights files that finds one sequence counted twice. *)
Definition one_weight : SearchModule :=
  {| dedup_info_to_counts := fun _ => Some {[ "q1"%string := 2 ]} |}.

(** ** The action with the failures of what it calls *)

(** What [action] calls outside this repository's sources, each able to
    raise: [sqlite3.connect] on the output path, [search.dedup_info_to_counts]
    on the weights file, [search.create_database] on the arguments and the
    weights. *)
Class ActionEnv : Type := {
  connect_raises : string -> option exn;
  parse_dedup : string -> exn + option (gmap string Z);
  create_database_raises : Args -> option (gmap string Z) -> option exn
}.

Definition raise_if (o : option exn) : M unit :=
  match o with
  | Some e => raise e
  | None => ret tt
  end.

Definition lift_result {A} (r : exn + A) : M A := ([], r).

(** [action] of search_sequences.py, statement by statement, with every
    exception of a callee propagating; [action] above is this function where
    no callee raises ([run_action_without_failures]). *)
Definition run_action {env : ActionEnv} (args : Args) : M unit :=
  emit (SqliteConnect (output args)) ;;;
  raise_if (connect_raises (output args)) ;;;
  weights <- match weights args with
             | Some fp =>
                 emit (DedupInfoToCounts fp) ;;;
                 weights <- lift_result (parse_dedup fp) ;;
                 py_assert (truthy weights) ;;;
                 ret weights
             | None => ret None
             end ;;
  emit (CreateDatabase (sequence_file args) weights (verbosity args =? 0)) ;;;
  raise_if (create_database_raises args weights).

(** The environment in which nothing raises and the parser is that of
    [search]. *)
Definition no_failures (search : SearchModule) : ActionEnv := {|
  connect_raises := fun _ => None;
  parse_dedup := fun fp => inr (dedup_info_to_counts fp);
  create_database_raises := fun _ _ => None
|}.

(** An output path that cannot be opened. *)
Definition unopenable : ActionEnv := {|
  connect_raises := fun _ => Some (OtherError "OperationalError");
  parse_dedup := fun _ => inr None;
  create_database_raises := fun _ _ => None
|}.

(** * Properties *)

(** ** The monad *)

Lemma bind_raise {A B} (m : M A) (k : A -> M B) e :
  m.2 = inl e -> bind m k = (m.1, inl e).
Proof. intros H. unfold bind. by rewrite H. Qed.

Lemma bind_value {A B} (m : M A) (k : A -> M B) t a :
  m = (t, inr a) -> bind m k = (t ++ (k a).1, (k a).2).
Proof. by intros ->. Qed.

Lemma bind_raise_eq {A B} (m : M A) (k : A -> M B) t e :
  m = (t, inl e) -> bind m k = (t, inl e).
Proof. by intros ->. Qed.

Lemma bind_value_eq {A B} (m : M A) (k : A -> M B) t a t2 r v :
  m = (t, inr a) -> k a = (t2, r) -> v = (t ++ t2, r) -> bind m k = v.
Proof. intros -> Hk ->. unfold bind. cbn. by rewrite Hk. Qed.

Lemma bind_inr_inv {A B} (m : M A) (k : A -> M B) t b :
  bind m k = (t, inr b) ->
  exists a t1 t2, m = (t1, inr a) /\ k a = (t2, inr b) /\ t = t1 ++ t2.
Proof.
  unfold bind. destruct m as [t1 [e|a]]; simpl; [discriminate|].
  destruct (k a) as [t2 r] eqn:Hk; simpl. intros [= <- ->]. eauto 10.
Qed.

Lemma check_call_zero {A} t (r : Z * A) :
  r.1 = 0 -> check_call t r = ([Invoke t], inr r.2).
Proof. intros H. unfold check_call. by rewrite H. Qed.

Lemma check_call_nonzero {A} t (r : Z * A) :
  r.1 <> 0 -> check_call t r = ([Invoke t], inl (CalledProcessError t r.1)).
Proof.
  intros H. unfold check_call. apply Z.eqb_neq in H. by rewrite H.
Qed.

Lemma check_call_inr_inv {A} t (r : Z * A) tr a :
  check_call t r = (tr, inr a) -> r.1 = 0 /\ a = r.2 /\ tr = [Invoke t].
Proof.
  unfold check_call. destruct (r.1 =? 0) eqn:E; cbn; [|discriminate].
  apply Z.eqb_eq in E. by intros [= <- <-].
Qed.

Section SelectFacts.

Context {tools : ExternalTools}.

Lemma cluster_zero sequences threshold :
  (usearch_run sequences threshold).1 = 0 ->
  _cluster sequences threshold =
    ([Invoke Usearch;
      LogClustered (length sequences) (size (seed_ids sequences threshold))],
     inr (filter (fun i => rec_id i ∈ seed_ids sequences threshold)
            sequences)).
Proof.
  intros H. unfold _cluster. by rewrite (check_call_zero _ _ H).
Qed.

Lemma cluster_nonzero sequences threshold :
  (usearch_run sequences threshold).1 <> 0 ->
  _cluster sequences threshold =
    ([Invoke Usearch],
     inl (CalledProcessError Usearch (usearch_run sequences threshold).1)).
Proof.
  intros H. unfold _cluster. by rewrite (check_call_nonzero _ _ H).
Qed.

Lemma cluster_inr_inv sequences threshold t out :
  _cluster sequences threshold = (t, inr out) ->
  (usearch_run sequences threshold).1 = 0 /\
  out = filter (fun i => rec_id i ∈ seed_ids sequences threshold) sequences /\
  t = [Invoke Usearch;
       LogClustered (length sequences)
         (size (seed_ids sequences threshold))].
Proof.
  intros H.
  destruct (decide ((usearch_run sequences threshold).1 = 0)) as [E|E].
  - rewrite (cluster_zero _ _ E) in H. by injection H as <- <-.
  - rewrite (cluster_nonzero _ _ E) in H. discriminate.
Qed.

Lemma select_early ref_seqs query_seqs keep threads mpi t reduced :
  _cluster ref_seqs CLUSTER_THRESHOLD = (t, inr reduced) ->
  Z.of_nat (length reduced) <= keep ->
  select_sequences_for_cluster ref_seqs query_seqs keep threads mpi =
    (t, inr (IdList (rec_id <$> reduced))).
Proof.
  intros Hc Hle. unfold select_sequences_for_cluster.
  rewrite (bind_value _ _ _ _ Hc).
  apply Z.leb_le in Hle. rewrite Hle. cbn. by rewrite app_nil_r.
Qed.

Lemma select_late ref_seqs query_seqs keep threads mpi t reduced :
  _cluster ref_seqs CLUSTER_THRESHOLD = (t, inr reduced) ->
  keep < Z.of_nat (length reduced) ->
  select_sequences_for_cluster ref_seqs query_seqs keep threads mpi =
    bind (t, inr reduced) (fun reduced =>
      prune_leaves <- prune_leaves_of reduced query_seqs keep threads mpi ;;
      py_assert (Z.of_nat (size (list_to_set (rec_id <$> reduced)
                                   ∖ prune_leaves)) =? keep) ;;;
      ret (IdSet (list_to_set (rec_id <$> reduced) ∖ prune_leaves))).
Proof.
  intros Hc Hlt. unfold select_sequences_for_cluster. rewrite Hc.
  unfold bind at 1; cbn [fst snd].
  apply Z.leb_gt in Hlt. rewrite Hlt. reflexivity.
Qed.

Lemma select_late_pruned ref_seqs query_seqs keep threads mpi
    t reduced t2 prune :
  _cluster ref_seqs CLUSTER_THRESHOLD = (t, inr reduced) ->
  keep < Z.of_nat (length reduced) ->
  prune_leaves_of reduced query_seqs keep threads mpi = (t2, inr prune) ->
  select_sequences_for_cluster ref_seqs query_seqs keep threads mpi =
    (t ++ t2,
     if Z.of_nat (size (list_to_set (rec_id <$> reduced) ∖ prune)) =? keep
     then inr (IdSet (list_to_set (rec_id <$> reduced) ∖ prune))
     else inl AssertionError).
Proof.
  intros Hc Hlt Hp. rewrite (select_late _ _ _ _ _ _ _ Hc Hlt).
  unfold bind at 1; cbn [fst snd]. rewrite (bind_value _ _ _ _ Hp).
  destruct (_ =? keep); cbn; by rewrite app_nil_r.
Qed.

Lemma cluster_ids_original sequences threshold t out i :
  _cluster sequences threshold = (t, inr out) ->
  i ∈ rec_id <$> out -> i ∈ rec_id <$> sequences.
Proof.
  intros (_ & -> & _)%cluster_inr_inv Hi.
  apply list_elem_of_fmap in Hi as (r & -> & Hr).
  apply list_elem_of_filter in Hr as [_ Hr].
  apply list_elem_of_fmap. eauto.
Qed.

Lemma prune_leaves_reported reduced query_seqs keep threads mpi t2 prune :
  prune_leaves_of reduced query_seqs keep threads mpi = (t2, inr prune) ->
  exists jplace,
    (voronoi_run jplace keep).1 = 0 /\
    prune = list_to_set (voronoi_run jplace keep).2.
Proof.
  unfold prune_leaves_of. intros H.
  do 5 (apply bind_inr_inv in H as (? & ? & ? & _ & H & _)).
  apply bind_inr_inv in H as (leaves & ? & ? & Hv & H & _).
  apply check_call_inr_inv in Hv as (Hz & -> & _).
  injection H as _ <-. eauto.
Qed.

Lemma select_late_inr_inv ref_seqs query_seqs keep threads mpi
    t reduced t' ids :
  _cluster ref_seqs CLUSTER_THRESHOLD = (t, inr reduced) ->
  keep < Z.of_nat (length reduced) ->
  select_sequences_for_cluster ref_seqs query_seqs keep threads mpi =
    (t', inr ids) ->
  exists t2 prune,
    prune_leaves_of reduced query_seqs keep threads mpi = (t2, inr prune) /\
    t' = t ++ t2 /\
    ids = IdSet (list_to_set (rec_id <$> reduced) ∖ prune) /\
    Z.of_nat (size (list_to_set (rec_id <$> reduced) ∖ prune)) = keep.
Proof.
  intros Hc Hlt H.
  destruct (prune_leaves_of reduced query_seqs keep threads mpi)
    as [t2 [e|prune]] eqn:Hp.
  - rewrite (select_late _ _ _ _ _ _ _ Hc Hlt) in H.
    unfold bind at 1 in H; cbn [fst snd] in H.
    rewrite (bind_raise _ _ e) in H by (by rewrite Hp). discriminate.
  - rewrite (select_late_pruned _ _ _ _ _ _ _ _ _ Hc Hlt Hp) in H.
    destruct (_ =? keep) eqn:E; [|discriminate].
    apply Z.eqb_eq in E. injection H as <- <-. eauto 10.
Qed.

(** C1 (as amended): when the reference list left by clustering is longer
    than [keep] and the alignment, placement and pruning programs all exit
    zero, the selector returns a set of exactly [keep] identifiers, all of
    them identifiers of the references it was given, if the clustered
    identifiers less the pruned ones number [keep]; otherwise it raises
    [AssertionError], which no continuation of the call recovers. *)
Theorem select_exact_count_after_clustering
    ref_seqs query_seqs keep threads mpi t reduced t2 prune :
  _cluster ref_seqs CLUSTER_THRESHOLD = (t, inr reduced) ->
  keep < Z.of_nat (length reduced) ->
  prune_leaves_of reduced query_seqs keep threads mpi = (t2, inr prune) ->
  let result : gset string := list_to_set (rec_id <$> reduced) ∖ prune in
  (Z.of_nat (size result) = keep ->
   select_sequences_for_cluster ref_seqs query_seqs keep threads mpi =
     (t ++ t2, inr (IdSet result)) /\
   Z.of_nat (id_len (IdSet result)) = keep /\
   (forall i, id_in i (IdSet result) = true -> i ∈ rec_id <$> ref_seqs)) /\
  (Z.of_nat (size result) <> keep ->
   select_sequences_for_cluster ref_seqs query_seqs keep threads mpi =
     (t ++ t2, inl AssertionError) /\
   (forall (B : Type) (k : id_collection -> M B),
      (bind (select_sequences_for_cluster ref_seqs query_seqs keep
               threads mpi) k).2 = inl AssertionError)).
Proof.
  intros Hc Hlt Hp result.
  pose proof (select_late_pruned _ _ _ _ _ _ _ _ _ Hc Hlt Hp) as Hs.
  fold result in Hs. split; intros Hn.
  - apply Z.eqb_eq in Hn as Hb. rewrite Hb in Hs.
    split; [done|]. split; [done|].
    intros i Hi. cbn in Hi. apply bool_decide_eq_true in Hi.
    apply elem_of_difference in Hi as [Hi _].
    apply elem_of_list_to_set in Hi.
    by eapply cluster_ids_original.
  - apply Z.eqb_neq in Hn as Hb. rewrite Hb in Hs.
    split; [done|]. intros B k.
    by rewrite (bind_raise _ _ AssertionError) by (by rewrite Hs).
Qed.

(** C2 (as amended): when the reference list left by clustering is longer
    than [keep], the selector returns a value exactly when the alignment,
    placement and pruning programs exit zero and the identifiers of the
    clustered list less the leaves the pruning tool reported number
    [keep]; the value is then that set, clustered identifiers minus
    reported prune leaves. *)
Theorem select_returns_clustered_minus_pruned
    ref_seqs query_seqs keep threads mpi t reduced :
  _cluster ref_seqs CLUSTER_THRESHOLD = (t, inr reduced) ->
  keep < Z.of_nat (length reduced) ->
  forall t' ids,
    select_sequences_for_cluster ref_seqs query_seqs keep threads mpi =
      (t', inr ids) <->
    exists t2 prune jplace,
      prune_leaves_of reduced query_seqs keep threads mpi
        = (t2, inr prune) /\
      (voronoi_run jplace keep).1 = 0 /\
      prune = list_to_set (voronoi_run jplace keep).2 /\
      t' = t ++ t2 /\
      ids = IdSet (list_to_set (rec_id <$> reduced) ∖ prune) /\
      Z.of_nat (size (list_to_set (rec_id <$> reduced) ∖ prune)) = keep.
Proof.
  intros Hc Hlt t' ids. split.
  - intros H.
    destruct (select_late_inr_inv _ _ _ _ _ _ _ _ _ Hc Hlt H)
      as (t2 & prune & Hp & -> & -> & Hn).
    destruct (prune_leaves_reported _ _ _ _ _ _ _ Hp) as (jp & Hz & Hj).
    exists t2, prune, jp. done.
  - intros (t2 & prune & jp & Hp & _ & _ & -> & -> & Hn).
    rewrite (select_late_pruned _ _ _ _ _ _ _ _ _ Hc Hlt Hp).
    apply Z.eqb_eq in Hn. by rewrite Hn.
Qed.

(** C3: when the clustered reference list has at most [keep] records, the
    selector returns the identifiers of exactly that list, in its order,
    and the only program it has run is [usearch]: no alignment, placement
    or pruning step. *)
Theorem select_returns_clustered_ids_when_few
    ref_seqs query_seqs keep threads mpi t reduced :
  _cluster ref_seqs CLUSTER_THRESHOLD = (t, inr reduced) ->
  Z.of_nat (length reduced) <= keep ->
  select_sequences_for_cluster ref_seqs query_seqs keep threads mpi =
    (t, inr (IdList (rec_id <$> reduced))) /\
  t = [Invoke Usearch;
       LogClustered (length ref_seqs)
         (size (seed_ids ref_seqs CLUSTER_THRESHOLD))] /\
  (forall tl, Invoke tl ∈ t -> tl = Usearch).
Proof.
  intros Hc Hle. split; [by apply select_early|].
  apply cluster_inr_inv in Hc as (_ & _ & ->). split; [done|].
  intros tl Hin. apply list_elem_of_In in Hin. cbn in Hin.
  destruct Hin as [H|[H|[]]]; congruence.
Qed.

(** C10: when [usearch] exits zero, [_cluster] returns a sub-list of its
    input (same records, same relative order), every returned identifier
    is a reported seed, the returned identifiers are exactly the seeds when
    the seeds are identifiers of the input, and the early return of the
    selector lists the identifiers in input order. *)
Theorem cluster_returns_sublist_of_input sequences threshold :
  (usearch_run sequences threshold).1 = 0 ->
  exists t out,
    _cluster sequences threshold = (t, inr out) /\
    sublist out sequences /\
    (forall r, r ∈ out -> r ∈ sequences /\
                         rec_id r ∈ seed_ids sequences threshold) /\
    (forall r, r ∈ sequences -> rec_id r ∈ seed_ids sequences threshold ->
               r ∈ out) /\
    (seed_ids sequences threshold ⊆ list_to_set (rec_id <$> sequences) ->
     list_to_set (rec_id <$> out) = seed_ids sequences threshold) /\
    (threshold = CLUSTER_THRESHOLD ->
     forall query_seqs keep threads mpi,
       Z.of_nat (length out) <= keep ->
       select_sequences_for_cluster sequences query_seqs keep threads mpi =
         (t, inr (IdList (rec_id <$> out))) /\
       sublist (rec_id <$> out) (rec_id <$> sequences)).
Proof.
  intros H0. eexists _, _. split; [by apply cluster_zero|].
  set (r := seed_ids sequences threshold).
  assert (Hsub : sublist (filter (fun i => rec_id i ∈ r) sequences)
                   sequences) by apply sublist_filter.
  split; [done|]. split.
  { intros x Hx. apply list_elem_of_filter in Hx. tauto. }
  split.
  { intros x Hx Hr. apply list_elem_of_filter. tauto. }
  split.
  { intros Hseeds. apply set_eq. intros i.
    rewrite elem_of_list_to_set, list_elem_of_fmap. split.
    - intros (x & -> & Hx). apply list_elem_of_filter in Hx. tauto.
    - intros Hi. specialize (Hseeds i Hi).
      apply elem_of_list_to_set, list_elem_of_fmap in Hseeds
        as (x & -> & Hx).
      exists x. split; [done|]. apply list_elem_of_filter. tauto. }
  intros -> query_seqs keep threads mpi Hle. split.
  - apply select_early; [by apply cluster_zero|done].
  - by apply fmap_sublist, sublist_filter.
Qed.

(** C7: a non-zero exit status raises [CalledProcessError] at once: the
    program was invoked exactly once, nothing that follows the call is
    run, and the error is the result of [_cluster] and of the selector. *)
Theorem nonzero_exit_raises_without_retry :
  (forall (A B : Type) (t : tool) (r : Z * A) (k : A -> M B),
     r.1 <> 0 ->
     bind (check_call t r) k = ([Invoke t], inl (CalledProcessError t r.1)))
  /\
  (forall sequences threshold,
     (usearch_run sequences threshold).1 <> 0 ->
     _cluster sequences threshold =
       ([Invoke Usearch],
        inl (CalledProcessError Usearch
               (usearch_run sequences threshold).1)))
  /\
  (forall ref_seqs query_seqs keep threads mpi,
     (usearch_run ref_seqs CLUSTER_THRESHOLD).1 <> 0 ->
     select_sequences_for_cluster ref_seqs query_seqs keep threads mpi =
       ([Invoke Usearch],
        inl (CalledProcessError Usearch
               (usearch_run ref_seqs CLUSTER_THRESHOLD).1))).
Proof.
  split; [|split].
  - intros A B t r k H. rewrite (check_call_nonzero _ _ H).
    by apply bind_raise.
  - apply cluster_nonzero.
  - intros ref_seqs query_seqs keep threads mpi H.
    unfold select_sequences_for_cluster.
    rewrite (cluster_nonzero _ _ H). by apply bind_raise.
Qed.

End SelectFacts.


(** ** The loop of [choose_references] *)

Lemma bind_fst {A B} (m : M A) (k : A -> M B) :
  (bind m k).1 =
  m.1 ++ match m.2 with inr a => (k a).1 | inl _ => [] end.
Proof. unfold bind. destruct m.2; cbn; by rewrite ?app_nil_r. Qed.

Lemma bind_snd {A B} (m : M A) (k : A -> M B) :
  (bind m k).2 = match m.2 with inr a => (k a).2 | inl e => inl e end.
Proof. unfold bind. by destruct m.2. Qed.

Lemma check_call_fst {A} t (r : Z * A) : (check_call t r).1 = [Invoke t].
Proof. unfold check_call. rewrite bind_fst. cbn. by destruct (r.1 =? 0). Qed.

Lemma mapM_yield_spec {A} (f : A -> SeqRecord) (l : list A) :
  exists us,
    mapM (fun r => emit (Yield (f r))) l =
      ((fun r => Yield (f r)) <$> l, inr us).
Proof.
  induction l as [|x l [us IH]]; [by exists []|].
  exists (tt :: us). cbn [mapM]. unfold bind at 1; cbn [fst snd emit].
  rewrite (bind_value _ _ _ _ IH). cbn. by rewrite app_nil_r.
Qed.

Lemma logged_app t1 t2 : logged (t1 ++ t2) = logged t1 ++ logged t2.
Proof. apply omap_app. Qed.

Lemma yielded_app t1 t2 : yielded (t1 ++ t2) = yielded t1 ++ yielded t2.
Proof. apply omap_app. Qed.

Lemma invoked_app t1 t2 : invoked (t1 ++ t2) = invoked t1 ++ invoked t2.
Proof. apply omap_app. Qed.

(** *** The ordered query *)

Lemma sorted_weaken {A} (R1 R2 : relation A) l :
  (forall a b, R1 a b -> R2 a b) ->
  StronglySorted R1 l -> StronglySorted R2 l.
Proof.
  intros HR. induction 1 as [|x l _ IH Hx]; constructor; [done|].
  eapply Forall_impl; [exact Hx|]. intros b. apply HR.
Qed.

Lemma insert_desc_elem_of x r l :
  x ∈ insert_desc r l <-> x = r \/ x ∈ l.
Proof.
  induction l as [|y l IH]; cbn.
  - rewrite list_elem_of_singleton, elem_of_nil. tauto.
  - destruct (Qle_bool y.2 r.2).
    + rewrite !elem_of_cons. tauto.
    + rewrite !elem_of_cons, IH. tauto.
Qed.

Lemma order_by_elem_of x rows :
  x ∈ order_by_total_weight_desc rows <-> x ∈ rows.
Proof.
  induction rows as [|r rows IH]; cbn; [done|].
  rewrite insert_desc_elem_of, elem_of_cons, IH. tauto.
Qed.

Lemma insert_desc_sorted r l :
  StronglySorted weight_desc l -> StronglySorted weight_desc (insert_desc r l).
Proof.
  induction 1 as [|y l Hs IH Hy]; cbn.
  - repeat constructor.
  - destruct (Qle_bool y.2 r.2) eqn:E.
    + apply Qle_bool_iff in E. constructor; [by constructor|].
      constructor; [exact E|].
      eapply Forall_impl; [exact Hy|]. intros z Hz. unfold weight_desc in *.
      by eapply Qle_trans.
    + constructor; [exact IH|].
      apply Forall_forall. intros z Hz.
      apply insert_desc_elem_of in Hz as [->|Hz].
      * unfold weight_desc. apply Qlt_le_weak, Qnot_le_lt.
        intros Hle. apply Qle_bool_iff in Hle. congruence.
      * by eapply Forall_forall in Hy.
Qed.

Lemma order_by_sorted rows :
  StronglySorted weight_desc (order_by_total_weight_desc rows).
Proof.
  induction rows as [|r rows IH]; cbn; [constructor|].
  by apply insert_desc_sorted.
Qed.

Lemma sum_weights_nonneg (rows : list (string * Q)) acc :
  (0 <= acc)%Q -> Forall (fun r => 0 <= r.2)%Q rows ->
  (0 <= foldl (fun acc r => acc + r.2) acc rows)%Q.
Proof.
  intros Hacc H. revert acc Hacc.
  induction H as [|r rows Hr _ IH]; intros acc Hacc; cbn; [done|].
  apply IH. replace 0%Q with (0 + 0)%Q by reflexivity.
  by apply Qplus_le_compat.
Qed.

Lemma total_weight_nonneg db tw :
  Forall (fun r => 0 <= r.2)%Q (sequences db) ->
  get_total_weight db = Some tw -> (0 <= tw)%Q.
Proof.
  unfold get_total_weight. intros H.
  destruct (sequences db) as [|r rows]; [discriminate|].
  intros [= <-].
  apply (sum_weights_nonneg (r :: rows) 0%Q); [apply Qle_refl|exact H].
Qed.

Lemma share_monotone (a b tw : Q) :
  (0 <= tw)%Q -> (b <= a)%Q -> (b / tw <= a / tw)%Q.
Proof.
  intros Htw Hab. unfold Qdiv.
  apply Qmult_le_compat_r; [done|]. by apply Qinv_le_0_compat.
Qed.

Lemma logged_yields {A} (f : A -> SeqRecord) l :
  logged ((fun r => Yield (f r)) <$> l) = [].
Proof. by induction l. Qed.

Lemma yielded_yields {A} (f : A -> SeqRecord) l :
  yielded ((fun r => Yield (f r)) <$> l) = f <$> l.
Proof. induction l; cbn; [done|]. by f_equal. Qed.

Section ChooseFacts.

Context {tools : ExternalTools}.
Variables (db : Db) (refs_per_cluster threads : Z) (min_cluster_prop : Q)
          (mpi_args : option (list string)).

Abbreviation body :=
  (choose_body db refs_per_cluster threads min_cluster_prop mpi_args).
Abbreviation loop :=
  (choose_loop db refs_per_cluster threads min_cluster_prop mpi_args).

Lemma mapM_set_weight_fst d l : (mapM (set_weight d) l).1 = [].
Proof.
  induction l as [|x l IH]; [done|].
  cbn [mapM]. rewrite bind_fst. unfold set_weight at 1 2.
  destruct (d !! rec_id x); cbn; [|done].
  rewrite bind_fst, IH. by destruct (mapM _ l).2.
Qed.

Lemma bind_quiet {A B} (m : M A) (k : A -> M B) :
  quiet m.1 -> (forall a, quiet (k a).1) -> quiet (bind m k).1.
Proof.
  intros [Hl Hy] Hk. rewrite bind_fst. unfold quiet.
  rewrite logged_app, yielded_app, Hl, Hy.
  destruct m.2 as [e|a]; [done|]. apply Hk.
Qed.

Lemma check_call_quiet {A} t (r : Z * A) : quiet (check_call t r).1.
Proof. by rewrite check_call_fst. Qed.

Ltac quiet_step :=
  lazymatch goal with
  | |- quiet (bind _ _).1 => apply bind_quiet; [|intros ?]
  | |- quiet (check_call _ _).1 => apply check_call_quiet
  | |- quiet (if ?b then _ else _).1 => destruct b
  | |- quiet (py_assert ?b).1 => destruct b; split; reflexivity
  | |- quiet (ret _).1 => split; reflexivity
  | |- quiet (emit (LogClustered _ _)).1 => split; reflexivity
  end.

Lemma cluster_quiet sequences threshold :
  quiet (_cluster sequences threshold).1.
Proof. unfold _cluster. repeat (cbn zeta; quiet_step). Qed.

Lemma prune_leaves_quiet ref_seqs query_seqs keep :
  quiet (prune_leaves_of ref_seqs query_seqs keep threads mpi_args).1.
Proof. unfold prune_leaves_of. repeat (cbn zeta; quiet_step). Qed.

Lemma select_quiet ref_seqs query_seqs keep :
  quiet (select_sequences_for_cluster ref_seqs query_seqs keep threads
           mpi_args).1.
Proof.
  unfold select_sequences_for_cluster.
  apply bind_quiet; [apply cluster_quiet|intros reduced].
  destruct (_ <=? keep); [split; reflexivity|].
  apply bind_quiet; [apply prune_leaves_quiet|intros prune].
  repeat (cbn zeta; quiet_step).
Qed.

(** What one pass of the loop body can do. *)
Lemma body_spec tot cm name cw :
  let d := dict_of_pairs (cluster_hit_seqs db name) in
  let b := body tot cm (name, cw) in
  (exists e, b.2 = inl e /\ quiet b.1 /\
             Forall (eq EslSfetch) (invoked b.1))
  \/ (exists tw,
        tot = Some tw /\ Qeq_bool tw 0 = false /\
        Qlt_bool (cw / tw) min_cluster_prop = true /\
        b = ([Invoke EslSfetch; Invoke EslSfetch;
              LogSkipping name (cw / tw * 100)%Q], inr false))
  \/ (exists tw refs qs0 qs ts r,
        tot = Some tw /\ Qeq_bool tw 0 = false /\
        Qlt_bool (cw / tw) min_cluster_prop = false /\
        esl_sfetch_seqs (ref_fasta db) (cm !!! name)
          = ([Invoke EslSfetch], inr refs) /\
        esl_sfetch_seqs (fasta_file db) (map_to_list d).*1
          = ([Invoke EslSfetch], inr qs0) /\
        mapM (set_weight d) qs0 = ([], inr qs) /\
        select_sequences_for_cluster refs qs refs_per_cluster threads
          mpi_args = (ts, r) /\
        b = ([Invoke EslSfetch; Invoke EslSfetch;
              LogCluster name (cw / tw * 100)%Q (size d)] ++ ts ++
             match r with
             | inr names =>
                 (fun ref => Yield (annotate_ref name (cw / tw)%Q ref)) <$>
                 filter (fun i => id_in (rec_id i) names = true) refs
             | inl _ => []
             end,
             match r with inr _ => inr true | inl e => inl e end)).
Proof.
  intros d b.
  assert (Hfail : forall t e,
            b = (t, inl e) -> t = [Invoke EslSfetch] \/
                              t = [Invoke EslSfetch; Invoke EslSfetch] ->
            exists e, b.2 = inl e /\ quiet b.1 /\
                      Forall (eq EslSfetch) (invoked b.1)).
  { intros t e -> Ht. exists e. split; [done|].
    destruct Ht as [->| ->]; cbn; (split; [done|]); repeat constructor. }
  unfold b in *. clear b. unfold choose_body in *. cbn [fst snd] in *.
  fold d in Hfail |- *. unfold esl_sfetch_seqs in *.
  destruct (decide ((esl_sfetch_run (ref_fasta db) (cm !!! name)).1 = 0))
    as [E1|E1].
  2:{ left. eapply Hfail; [|by left].
      apply bind_raise_eq, check_call_nonzero, E1. }
  apply check_call_zero with (t := EslSfetch) in E1.
  destruct (decide ((esl_sfetch_run (fasta_file db) (map_to_list d).*1).1
                    = 0)) as [E2|E2].
  2:{ left. eapply Hfail; [|by right].
      eapply bind_value_eq; [exact E1|cbn beta|reflexivity].
      apply bind_raise_eq, check_call_nonzero, E2. }
  apply check_call_zero with (t := EslSfetch) in E2.
  pose proof (mapM_set_weight_fst d
                (esl_sfetch_run (fasta_file db) (map_to_list d).*1).2) as H3.
  destruct (mapM (set_weight d) _) as [t3 [e|qs]] eqn:E3;
    cbn in H3; subst t3.
  { left. eapply Hfail; [|by right].
    eapply bind_value_eq; [exact E1|cbn beta|reflexivity].
    eapply bind_value_eq; [exact E2|cbn beta|reflexivity].
    apply bind_raise_eq, E3. }
  destruct tot as [tw|].
  2:{ left. eapply Hfail; [|by right].
      eapply bind_value_eq; [exact E1|cbn beta|reflexivity].
      eapply bind_value_eq; [exact E2|cbn beta|reflexivity].
      eapply bind_value_eq; [exact E3|cbn beta|reflexivity].
      by apply bind_raise_eq. }
  destruct (Qeq_bool tw 0) eqn:Ez.
  { left. eapply Hfail; [|by right].
    eapply bind_value_eq; [exact E1|cbn beta|reflexivity].
    eapply bind_value_eq; [exact E2|cbn beta|reflexivity].
    eapply bind_value_eq; [exact E3|cbn beta|reflexivity].
    apply bind_raise_eq. unfold py_div. by rewrite Ez. }
  assert (Ed : py_div cw (Some tw) = ([], inr (cw / tw)%Q))
    by (unfold py_div; by rewrite Ez).
  destruct (Qlt_bool (cw / tw) min_cluster_prop) eqn:El.
  { right; left. exists tw. do 3 (split; [done|]).
    eapply bind_value_eq; [exact E1|cbn beta|reflexivity].
    eapply bind_value_eq; [exact E2|cbn beta|reflexivity].
    eapply bind_value_eq; [exact E3|cbn beta|reflexivity].
    eapply bind_value_eq; [exact Ed|cbn beta|reflexivity].
    rewrite El. reflexivity. }
  right; right.
  destruct (select_sequences_for_cluster
              (esl_sfetch_run (ref_fasta db) (cm !!! name)).2 qs
              refs_per_cluster threads mpi_args) as [ts r] eqn:Es.
  exists tw, (esl_sfetch_run (ref_fasta db) (cm !!! name)).2,
    (esl_sfetch_run (fasta_file db) (map_to_list d).*1).2, qs, ts, r.
  do 3 (split; [done|]). do 3 (split; [done|]). split; [exact Es|].
  eapply bind_value_eq; [exact E1|cbn beta|reflexivity].
  eapply bind_value_eq; [exact E2|cbn beta|reflexivity].
  eapply bind_value_eq; [exact E3|cbn beta|reflexivity].
  eapply bind_value_eq; [exact Ed|cbn beta|reflexivity].
  rewrite El.
  eapply bind_value_eq; [reflexivity|cbn beta|reflexivity].
  destruct r as [e|names].
  { rewrite app_nil_r. by apply bind_raise_eq. }
  destruct (mapM_yield_spec (annotate_ref name (cw / tw)%Q)
              (filter (fun i => id_in (rec_id i) names = true)
                 (esl_sfetch_run (ref_fasta db) (cm !!! name)).2))
    as [us Hy].
  eapply bind_value_eq; [exact Es|cbn beta|reflexivity].
  eapply bind_value_eq; [exact Hy|cbn beta|]; [reflexivity|].
  by rewrite app_nil_r.
Qed.

(** *** The loop *)

Lemma loop_cons tot cm row rest :
  loop tot cm (row :: rest) =
  bind (body tot cm row)
    (fun go_on : bool => if go_on then loop tot cm rest else ret tt).
Proof. reflexivity. Qed.

Lemma loop_cons_raise tot cm row rest e :
  (body tot cm row).2 = inl e ->
  loop tot cm (row :: rest) = ((body tot cm row).1, inl e).
Proof. intros H. rewrite loop_cons. by apply bind_raise. Qed.

Lemma loop_cons_break tot cm row rest t :
  body tot cm row = (t, inr false) ->
  loop tot cm (row :: rest) = (t, inr tt).
Proof.
  intros H. rewrite loop_cons, (bind_value _ _ _ _ H). cbn.
  by rewrite app_nil_r.
Qed.

Lemma loop_cons_continue tot cm row rest t :
  body tot cm row = (t, inr true) ->
  loop tot cm (row :: rest) =
    (t ++ (loop tot cm rest).1, (loop tot cm rest).2).
Proof. intros H. by rewrite loop_cons, (bind_value _ _ _ _ H). Qed.

(** Rows after one on which the body does not say "go on" are never
    looked at. *)
Lemma loop_stops tot cm pre row post :
  (body tot cm row).2 <> inr true ->
  loop tot cm (pre ++ row :: post) = loop tot cm (pre ++ [row]).
Proof.
  intros Hstop. induction pre as [|x pre IH]; cbn [app].
  - rewrite !loop_cons.
    destruct (body tot cm row) as [t [e|[|]]]; cbn in *; done.
  - rewrite !loop_cons.
    destruct (body tot cm x) as [t [e|[|]]]; unfold bind; cbn;
      [done| |done].
    by rewrite IH.
Qed.

(** C4: when the rows in [ORDER BY] order are [pre ++ (name, cw) :: post]
    and the share [cw / total] is below [min_cluster_prop], the run is the
    run on [pre ++ [(name, cw)]]: the rows of [post] play no part.  On
    [(name, cw)] the loop body yields nothing, runs no program but the two
    sequence fetches (no clustering, alignment, placement or pruning) and
    either breaks after logging the skip or raises from a fetch. *)
Theorem choose_references_breaks_at_low_share pre name cw post tw :
  order_by_total_weight_desc (vw_cluster_weights db)
    = pre ++ (name, cw) :: post ->
  get_total_weight db = Some tw ->
  Qeq_bool tw 0 = false ->
  Qlt_bool (cw / tw) min_cluster_prop = true ->
  let cm := fetch_cluster_members (ref_cluster_names db) in
  let b := body (Some tw) cm (name, cw) in
  choose_references db refs_per_cluster threads min_cluster_prop mpi_args
    = loop (Some tw) cm (pre ++ [(name, cw)]) /\
  yielded b.1 = [] /\
  Forall (eq EslSfetch) (invoked b.1) /\
  (b = ([Invoke EslSfetch; Invoke EslSfetch;
         LogSkipping name (cw / tw * 100)%Q], inr false)
   \/ exists e, b.2 = inl e).
Proof.
  intros Hrows Htot Hnz Hlow cm b.
  assert (Hb : yielded b.1 = [] /\ Forall (eq EslSfetch) (invoked b.1) /\
               (b = ([Invoke EslSfetch; Invoke EslSfetch;
                      LogSkipping name (cw / tw * 100)%Q], inr false)
                \/ exists e, b.2 = inl e)).
  { destruct (body_spec (Some tw) cm name cw)
      as [(e & He & [_ Hy] & Hi)|[(tw' & [= <-] & _ & _ & Hb)
         |(tw' & ? & ? & ? & ? & ? & [= <-] & _ & Hge & _)]].
    - eauto.
    - fold b in Hb. rewrite Hb. cbn.
      split; [done|]. split; [repeat constructor|by left].
    - congruence. }
  split; [|exact Hb].
  unfold choose_references. rewrite Hrows, Htot. apply loop_stops.
  fold cm b. destruct Hb as (_ & _ & [-> |[e ->]]); done.
Qed.

(** *** What the log shows *)

Lemma body_logged tot cm name cw :
  let b := body tot cm (name, cw) in
  (logged b.1 = [] /\ exists e, b.2 = inl e)
  \/ (exists tw, tot = Some tw /\ Qeq_bool tw 0 = false /\
                 logged b.1 = [(name, (cw / tw * 100)%Q)]).
Proof.
  intros b.
  destruct (body_spec tot cm name cw)
    as [(e & He & [Hl _] & _)|[(tw & -> & Hnz & _ & Hb)
       |(tw & refs & qs0 & qs & ts & r & -> & Hnz & _ & _ & _ & _ & Hs
          & Hb)]]; try fold b in Hb.
  - left. eauto.
  - right. exists tw. by rewrite Hb.
  - right. exists tw. do 2 (split; [done|]). rewrite Hb. cbn [fst].
    pose proof (select_quiet refs qs refs_per_cluster) as [Hq _].
    rewrite Hs in Hq. cbn [fst] in Hq.
    rewrite !logged_app, Hq. destruct r; cbn; [done|].
    by rewrite logged_yields.
Qed.

Lemma loop_logged tot cm rows :
  exists done,
    done `prefix_of` rows /\
    (logged (loop tot cm rows).1).*1 = done.*1 /\
    (tot = None -> done = []) /\
    forall tw, tot = Some tw ->
      logged (loop tot cm rows).1 =
        (fun r => (r.1, (r.2 / tw * 100)%Q)) <$> done.
Proof.
  induction rows as [|[name cw] rest (done & Hpre & Hnames & _ & Hlog)].
  { exists []. done. }
  pose proof (body_logged tot cm name cw) as Hb. cbn zeta in Hb.
  destruct Hb as [[Hl [e He]]|(tw & -> & Hnz & Hl)].
  - exists []. rewrite (loop_cons_raise _ _ _ _ _ He). cbn [fst].
    rewrite Hl. split; [apply prefix_nil|done].
  - destruct (body (Some tw) cm (name, cw)) as [t [e|[|]]] eqn:Eb;
      cbn [fst] in Hl.
    + exists [(name, cw)]. erewrite loop_cons_raise by (by rewrite Eb).
      rewrite Eb. cbn [fst]. rewrite Hl.
      split; [by apply prefix_cons, prefix_nil|].
      do 2 (split; [done|]). by intros ? [= <-].
    + exists ((name, cw) :: done). rewrite (loop_cons_continue _ _ _ _ _ Eb).
      cbn [fst]. rewrite logged_app, Hl.
      split; [by apply prefix_cons|]. cbn. rewrite Hnames.
      do 2 (split; [done|]). intros ? [= <-]. by rewrite (Hlog tw).
    + exists [(name, cw)]. rewrite (loop_cons_break _ _ _ _ _ Eb).
      cbn [fst]. rewrite Hl.
      split; [by apply prefix_cons, prefix_nil|].
      do 2 (split; [done|]). by intros ? [= <-].
Qed.

Lemma sorted_prefix (done rows : list (string * Q)) :
  done `prefix_of` rows ->
  StronglySorted weight_desc rows -> StronglySorted weight_desc done.
Proof. intros [k ->]. apply StronglySorted_app_1_l. Qed.

(** C5: with non-negative sequence weights, the clusters the loop reaches
    (those with a log record) are an initial part of the rows in
    [ORDER BY total_weight DESC] order, and their weight shares, like the
    percentages logged for them, never increase from one to the next. *)
Theorem clusters_processed_in_nonincreasing_share :
  Forall (fun r => 0 <= r.2)%Q (sequences db) ->
  let t := (choose_references db refs_per_cluster threads min_cluster_prop
              mpi_args).1 in
  exists done,
    done `prefix_of` order_by_total_weight_desc (vw_cluster_weights db) /\
    (logged t).*1 = done.*1 /\
    (forall tw, get_total_weight db = Some tw ->
       logged t = (fun r => (r.1, (r.2 / tw * 100)%Q)) <$> done /\
       StronglySorted (fun a b => b.2 / tw <= a.2 / tw)%Q done) /\
    StronglySorted weight_desc (logged t).
Proof.
  intros Hnn t. subst t. unfold choose_references.
  destruct (loop_logged (get_total_weight db)
              (fetch_cluster_members (ref_cluster_names db))
              (order_by_total_weight_desc (vw_cluster_weights db)))
    as (done & Hpre & Hnames & Hnone & Hlog).
  pose proof (sorted_prefix _ _ Hpre (order_by_sorted _)) as Hsorted.
  assert (Hshare : forall tw, get_total_weight db = Some tw ->
            StronglySorted (fun a b => b.2 / tw <= a.2 / tw)%Q done).
  { intros tw Htw. pose proof (total_weight_nonneg _ _ Hnn Htw) as H0.
    eapply sorted_weaken; [|exact Hsorted].
    intros a b. by apply share_monotone. }
  exists done. split; [done|]. split; [done|]. split.
  { intros tw Htw. split; [by apply Hlog|by apply Hshare]. }
  destruct (get_total_weight db) as [tw|] eqn:Htw.
  - rewrite (Hlog tw eq_refl).
    apply (StronglySorted_fmap _ (fun a b => b.2 / tw <= a.2 / tw)%Q);
      [|by apply Hshare].
    intros a b Hab. unfold weight_desc. cbn.
    apply Qmult_le_compat_r; [exact Hab|done].
  - rewrite (Hnone eq_refl) in Hnames.
    destruct (logged _); [constructor|done].
Qed.

(** *** What is yielded *)

Lemma annotate_ref_lookup name prop ref :
  rec_id (annotate_ref name prop ref) = rec_id ref /\
  rec_seq (annotate_ref name prop ref) = rec_seq ref /\
  annotations (annotate_ref name prop ref) !! "cluster_name"
    = Some (AStr name) /\
  annotations (annotate_ref name prop ref) !! "weight_prop"
    = Some (ANum prop).
Proof.
  unfold annotate_ref, annotations_update. cbn.
  do 2 (split; [done|]). split.
  - rewrite lookup_insert_ne by done. apply lookup_insert_eq.
  - apply lookup_insert_eq.
Qed.

Lemma body_yielded tot cm name cw y :
  y ∈ yielded (body tot cm (name, cw)).1 ->
  exists tw refs qs ts names ref,
    tot = Some tw /\ Qeq_bool tw 0 = false /\
    Qlt_bool (cw / tw) min_cluster_prop = false /\
    esl_sfetch_seqs (ref_fasta db) (cm !!! name)
      = ([Invoke EslSfetch], inr refs) /\
    select_sequences_for_cluster refs qs refs_per_cluster threads mpi_args
      = (ts, inr names) /\
    ref ∈ refs /\ id_in (rec_id ref) names = true /\
    y = annotate_ref name (cw / tw)%Q ref.
Proof.
  destruct (body_spec tot cm name cw)
    as [(e & He & [_ Hy] & _)|[(tw & -> & Hnz & _ & Hb)
       |(tw & refs & qs0 & qs & ts & r & -> & Hnz & Hge & Hf & _ & _ & Hs
          & Hb)]].
  - rewrite Hy. by intros ?%elem_of_nil.
  - rewrite Hb. cbn. by intros ?%elem_of_nil.
  - rewrite Hb. cbn [fst].
    pose proof (select_quiet refs qs refs_per_cluster) as [_ Hq].
    rewrite Hs in Hq. cbn [fst] in Hq.
    rewrite !yielded_app, Hq. cbn [yielded omap app].
    destruct r as [e|names]; [by intros ?%elem_of_nil|].
    rewrite yielded_yields.
    intros (ref & -> & Hin)%list_elem_of_fmap.
    apply list_elem_of_filter in Hin as [Hid Hin].
    exists tw, refs, qs, ts, names, ref. done.
Qed.

Lemma loop_yielded tot cm rows y :
  y ∈ yielded (loop tot cm rows).1 ->
  exists row, row ∈ rows /\ y ∈ yielded (body tot cm row).1.
Proof.
  induction rows as [|row rest IH]; [by intros ?%elem_of_nil|].
  rewrite loop_cons, bind_fst, yielded_app, elem_of_app.
  intros [H|H].
  - exists row. split; [by left|done].
  - destruct (body tot cm row).2 as [e|[|]];
      try (by apply elem_of_nil in H).
    destruct (IH H) as (row' & Hin & Hy). exists row'.
    split; [by right|done].
Qed.

(** C8: every record the generator yields is a reference fetched for some
    cluster of the weights view, whose identifier is in the value the
    selector returned for that cluster, with annotation [cluster_name] set
    to that cluster's name and [weight_prop] to the cluster weight divided
    by the total weight of the database. *)
Theorem yielded_refs_carry_cluster_and_share y :
  y ∈ yielded (choose_references db refs_per_cluster threads
                 min_cluster_prop mpi_args).1 ->
  exists name cw tw refs qs ts names ref,
    (name, cw) ∈ vw_cluster_weights db /\
    get_total_weight db = Some tw /\
    esl_sfetch_seqs (ref_fasta db)
      (fetch_cluster_members (ref_cluster_names db) !!! name)
      = ([Invoke EslSfetch], inr refs) /\
    select_sequences_for_cluster refs qs refs_per_cluster threads mpi_args
      = (ts, inr names) /\
    ref ∈ refs /\
    id_in (rec_id ref) names = true /\
    y = annotate_ref name (cw / tw)%Q ref /\
    rec_id y = rec_id ref /\
    annotations y !! "cluster_name" = Some (AStr name) /\
    annotations y !! "weight_prop" = Some (ANum (cw / tw)%Q).
Proof.
  unfold choose_references. intros ([name cw] & Hrow & Hy)%loop_yielded.
  apply (proj1 (order_by_elem_of _ _)) in Hrow.
  apply body_yielded in Hy
    as (tw & refs & qs & ts & names & ref & Htw & _ & _ & Hf & Hs & Hin
        & Hid & ->).
  destruct (annotate_ref_lookup name (cw / tw)%Q ref) as (H1 & _ & H2 & H3).
  exists name, cw, tw, refs, qs, ts, names, ref. done.
Qed.

(** *** The division by the total weight *)

Lemma py_div_defined cw tot :
  (exists q, py_div cw tot = ([], inr q)) <->
  exists tw, tot = Some tw /\ ~ (tw == 0)%Q.
Proof.
  unfold py_div. split.
  - intros [q H]. destruct tot as [tw|]; [|discriminate].
    destruct (Qeq_bool tw 0) eqn:E; [discriminate|].
    exists tw. split; [done|]. by apply Qeq_bool_neq.
  - intros (tw & -> & Hnz). destruct (Qeq_bool tw 0) eqn:E.
    + by apply Qeq_bool_iff in E.
    + by eexists.
Qed.

Lemma body_division_fails tot cm name cw refs qs0 qs :
  let d := dict_of_pairs (cluster_hit_seqs db name) in
  tot = None \/ (exists tw, tot = Some tw /\ (tw == 0)%Q) ->
  esl_sfetch_seqs (ref_fasta db) (cm !!! name)
    = ([Invoke EslSfetch], inr refs) ->
  esl_sfetch_seqs (fasta_file db) (map_to_list d).*1
    = ([Invoke EslSfetch], inr qs0) ->
  mapM (set_weight d) qs0 = ([], inr qs) ->
  body tot cm (name, cw) =
    ([Invoke EslSfetch; Invoke EslSfetch],
     inl (match tot with None => TypeError | Some _ => ZeroDivisionError
          end)).
Proof.
  intros d Htot E1 E2 E3. unfold choose_body. cbn [fst snd]. fold d.
  eapply bind_value_eq; [exact E1|cbn beta|reflexivity].
  eapply bind_value_eq; [exact E2|cbn beta|reflexivity].
  eapply bind_value_eq; [exact E3|cbn beta|reflexivity].
  apply bind_raise_eq.
  destruct Htot as [->|(tw & -> & Hz)]; [done|].
  apply Qeq_bool_iff in Hz. unfold py_div. by rewrite Hz.
Qed.

(** C9: the share is [cluster_weight / total_weight] with no guard.
    [SUM(weight)] is NULL exactly when [sequences] has no row; the quotient
    is defined exactly when the total is a number other than zero, which
    for non-negative weights means a positive total.  With a NULL or zero
    total and at least one cluster row, the run raises in its first pass
    through the loop, having yielded and logged nothing: [TypeError] for
    NULL and [ZeroDivisionError] for zero once the two fetches and the
    weight annotation have gone through. *)
Theorem weight_share_needs_positive_total :
  (sequences db = [] <-> get_total_weight db = None) /\
  (forall cw tot,
     (exists q, py_div cw tot = ([], inr q)) <->
     exists tw, tot = Some tw /\ ~ (tw == 0)%Q) /\
  (Forall (fun r => 0 <= r.2)%Q (sequences db) ->
   forall cw tw, get_total_weight db = Some tw ->
     ((exists q, py_div cw (Some tw) = ([], inr q)) <-> (0 < tw)%Q)) /\
  (forall name cw rest,
     order_by_total_weight_desc (vw_cluster_weights db)
       = (name, cw) :: rest ->
     get_total_weight db = None \/
     (exists tw, get_total_weight db = Some tw /\ (tw == 0)%Q) ->
     let cm := fetch_cluster_members (ref_cluster_names db) in
     let d := dict_of_pairs (cluster_hit_seqs db name) in
     let run := choose_references db refs_per_cluster threads
                  min_cluster_prop mpi_args in
     (exists e, run.2 = inl e) /\
     quiet run.1 /\
     Forall (eq EslSfetch) (invoked run.1) /\
     (forall refs qs0 qs,
        esl_sfetch_seqs (ref_fasta db) (cm !!! name)
          = ([Invoke EslSfetch], inr refs) ->
        esl_sfetch_seqs (fasta_file db) (map_to_list d).*1
          = ([Invoke EslSfetch], inr qs0) ->
        mapM (set_weight d) qs0 = ([], inr qs) ->
        run = ([Invoke EslSfetch; Invoke EslSfetch],
               inl (match get_total_weight db with
                    | None => TypeError
                    | Some _ => ZeroDivisionError
                    end)))).
Proof.
  split; [|split; [|split]].
  - unfold get_total_weight. by destruct (sequences db).
  - apply py_div_defined.
  - intros Hnn cw tw Htw. rewrite py_div_defined.
    pose proof (total_weight_nonneg _ _ Hnn Htw) as H0. split.
    + intros (? & [= <-] & Hnz).
      apply Qle_lt_or_eq in H0 as [H0|H0]; [done|].
      exfalso. apply Hnz. by symmetry.
    + intros Hpos. exists tw. split; [done|].
      intros Hz. apply (Qlt_not_eq _ _ Hpos). by symmetry.
  - intros name cw rest Hrows Htot cm d run.
    subst run. unfold choose_references. rewrite Hrows. fold cm.
    assert (Hfail : exists e,
              (body (get_total_weight db) cm (name, cw)).2 = inl e /\
              quiet (body (get_total_weight db) cm (name, cw)).1 /\
              Forall (eq EslSfetch)
                (invoked (body (get_total_weight db) cm (name, cw)).1)).
    { destruct (body_spec (get_total_weight db) cm name cw)
        as [H|[(tw & Htw & Hnz & _)|(tw & ? & ? & ? & ? & ? & Htw & Hnz
                                       & _)]]; [exact H| |];
        exfalso; apply Qeq_bool_neq in Hnz;
        destruct Htot as [Hn|(tw' & Htw' & Hz)]; congruence. }
    destruct Hfail as (e & He & Hq & Hi).
    rewrite (loop_cons_raise _ _ _ _ _ He). cbn [fst snd].
    split; [by exists e|]. split; [done|]. split; [done|].
    intros refs qs0 qs E1 E2 E3.
    rewrite (body_division_fails _ cm name cw refs qs0 qs Htot E1 E2 E3)
      in He |- *.
    cbn in He. by injection He as <-.
Qed.

End ChooseFacts.

(** ** The search_sequences action *)

Section ActionFacts.

Context {search : SearchModule}.

Lemma truthy_false w : truthy w = false <-> w = None \/ w = Some ∅.
Proof.
  destruct w as [m|]; cbn.
  - rewrite negb_false_iff, bool_decide_eq_true. split.
    + intros ->. by right.
    + by intros [|[= ->]].
  - split; [by left|done].
Qed.

Lemma action_creates_database args :
  match weights args with
  | None => True
  | Some fp => truthy (dedup_info_to_counts fp) = true
  end ->
  exists t w,
    action args =
      (t ++ [CreateDatabase (sequence_file args) w (verbosity args =? 0)],
       inr tt).
Proof.
  unfold action. destruct (weights args) as [fp|].
  - intros Hw. eexists [_; _], _. cbn. rewrite Hw. reflexivity.
  - intros _. by eexists [_], _.
Qed.

(** C6: when a weights file is given and parsing it gives no mapping or an
    empty one, the action raises [AssertionError]; by then it has opened
    the connection to the output file and parsed the weights, and
    [search.create_database] is not called. *)
Theorem action_asserts_weights_before_create_database args fp :
  weights args = Some fp ->
  dedup_info_to_counts fp = None \/ dedup_info_to_counts fp = Some ∅ ->
  action args =
    ([SqliteConnect (output args); DedupInfoToCounts fp],
     inl AssertionError) /\
  (forall sf w q, CreateDatabase sf w q ∉ (action args).1).
Proof.
  intros Hw Hempty. apply truthy_false in Hempty.
  assert (Ha : action args =
                 ([SqliteConnect (output args); DedupInfoToCounts fp],
                  inl AssertionError)).
  { unfold action. rewrite Hw. cbn. by rewrite Hempty. }
  split; [exact Ha|]. rewrite Ha. cbn. intros sf w q Hin.
  apply list_elem_of_In in Hin. cbn in Hin.
  destruct Hin as [H|[H|[]]]; discriminate.
Qed.

End ActionFacts.

(** ** The selector on the small instances *)

Lemma select_returns_clustered_ids_when_few_witness :
  Z.of_nat (length [rec_of "a"]) <= 2 /\
  @select_sequences_for_cluster (demo_tools ["a"] []) abc [] 2 12 None =
    ([Invoke Usearch; LogClustered 3 1], inr (IdList ["a"])).
Proof.
  split; [vm_compute; discriminate|].
  refine (proj1 (@select_returns_clustered_ids_when_few
                   (demo_tools ["a"] []) abc [] 2 12 None
                   [Invoke Usearch; LogClustered 3 1] [rec_of "a"] _ _)).
  - vm_compute. reflexivity.
  - vm_compute. discriminate.
Defined.

Lemma cluster_returns_sublist_of_input_witness :
  exists t out,
    @_cluster (demo_tools ["c"; "a"] []) abc CLUSTER_THRESHOLD = (t, inr out) /\
    sublist out abc /\
    list_to_set (rec_id <$> out) =
      @seed_ids (demo_tools ["c"; "a"] []) abc CLUSTER_THRESHOLD.
Proof.
  destruct (@cluster_returns_sublist_of_input
              (demo_tools ["c"; "a"] []) abc CLUSTER_THRESHOLD eq_refl)
    as (t & out & Hc & Hsub & _ & _ & Hseeds & _).
  exists t, out. split; [exact Hc|]. split; [exact Hsub|].
  apply Hseeds. apply (bool_decide_eq_true_1 _). vm_compute. reflexivity.
Defined.

Lemma nonzero_exit_raises_without_retry_witness :
  @select_sequences_for_cluster failing_usearch abc [] 2 12 None =
    ([Invoke Usearch], inl (CalledProcessError Usearch 1)).
Proof.
  refine (proj2 (proj2 (@nonzero_exit_raises_without_retry failing_usearch))
            abc [] 2 12 None _).
  vm_compute. discriminate.
Defined.

Lemma select_exact_count_after_clustering_witness :
  @select_sequences_for_cluster (demo_tools ["a"; "b"; "c"] ["b"])
      abc [] 2 12 None =
    ([Invoke Usearch; LogClustered 3 3; Invoke Cmalign; Invoke AsRefpkg;
      Invoke RedupfileOfSeqs; Invoke Pplacer; Invoke GuppyRedup;
      Invoke Voronoi],
     inr (IdSet (list_to_set (rec_id <$> abc) ∖ list_to_set ["b"]))) /\
  @select_sequences_for_cluster (demo_tools ["a"; "b"; "c"] [])
      abc [] 2 12 None =
    ([Invoke Usearch; LogClustered 3 3; Invoke Cmalign; Invoke AsRefpkg;
      Invoke RedupfileOfSeqs; Invoke Pplacer; Invoke GuppyRedup;
      Invoke Voronoi],
     inl AssertionError).
Proof.
  split.
  - refine (proj1 (proj1 (@select_exact_count_after_clustering
                     (demo_tools ["a"; "b"; "c"] ["b"]) abc [] 2 12 None
                     [Invoke Usearch; LogClustered 3 3] abc
                     [Invoke Cmalign; Invoke AsRefpkg; Invoke RedupfileOfSeqs;
                      Invoke Pplacer; Invoke GuppyRedup; Invoke Voronoi]
                     (list_to_set ["b"]) _ _ _) _)).
    + vm_compute. reflexivity.
    + vm_compute. reflexivity.
    + vm_compute. reflexivity.
    + vm_compute. reflexivity.
  - refine (proj1 (proj2 (@select_exact_count_after_clustering
                     (demo_tools ["a"; "b"; "c"] []) abc [] 2 12 None
                     [Invoke Usearch; LogClustered 3 3] abc
                     [Invoke Cmalign; Invoke AsRefpkg; Invoke RedupfileOfSeqs;
                      Invoke Pplacer; Invoke GuppyRedup; Invoke Voronoi]
                     (list_to_set []) _ _ _) _)).
    + vm_compute. reflexivity.
    + vm_compute. reflexivity.
    + vm_compute. reflexivity.
    + vm_compute. discriminate.
Defined.

Lemma select_returns_clustered_minus_pruned_witness :
  @select_sequences_for_cluster (demo_tools ["a"; "b"] ["b"])
      abc [] 1 12 None =
    ([Invoke Usearch; LogClustered 3 2; Invoke Cmalign; Invoke AsRefpkg;
      Invoke RedupfileOfSeqs; Invoke Pplacer; Invoke GuppyRedup;
      Invoke Voronoi],
     inr (IdSet (list_to_set (rec_id <$> [rec_of "a"; rec_of "b"])
                   ∖ list_to_set ["b"]))).
Proof.
  refine (proj2 (@select_returns_clustered_minus_pruned
                   (demo_tools ["a"; "b"] ["b"]) abc [] 1 12 None
                   [Invoke Usearch; LogClustered 3 2]
                   [rec_of "a"; rec_of "b"] _ _ _ _) _).
  - vm_compute. reflexivity.
  - vm_compute. reflexivity.
  - exists [Invoke Cmalign; Invoke AsRefpkg; Invoke RedupfileOfSeqs;
            Invoke Pplacer; Invoke GuppyRedup; Invoke Voronoi],
           (list_to_set ["b"]), tt.
    repeat split; vm_compute; reflexivity.
Defined.

(** C1 as stated fails: three references are given and two are asked for,
    yet clustering leaves one and that one identifier is what the selector
    returns. *)
Lemma select_count_counterexample :
  2 < Z.of_nat (length abc) /\
  @select_sequences_for_cluster (demo_tools ["a"] []) abc [] 2 12 None =
    ([Invoke Usearch; LogClustered 3 1], inr (IdList ["a"])) /\
  Z.of_nat (id_len (IdList ["a"])) <> 2.
Proof. repeat split; vm_compute; congruence. Qed.

(** C2 as stated fails: the references are a, b, c, clustering keeps a and b,
    the pruning tool reports b; the selector returns {a}, while the original
    identifiers less the pruned ones are {a, c}. *)
Lemma select_original_minus_pruned_counterexample :
  @select_sequences_for_cluster (demo_tools ["a"; "b"] ["b"])
      abc [] 1 12 None =
    ([Invoke Usearch; LogClustered 3 2; Invoke Cmalign; Invoke AsRefpkg;
      Invoke RedupfileOfSeqs; Invoke Pplacer; Invoke GuppyRedup;
      Invoke Voronoi],
     inr (IdSet (list_to_set ["a"]))) /\
  (list_to_set ["a"] : gset string) <>
    list_to_set (rec_id <$> abc) ∖ list_to_set ["b"].
Proof.
  split; [vm_compute; reflexivity|].
  apply (bool_decide_eq_true_1 (_ <> _)). vm_compute. reflexivity.
Qed.

(** ** The loop on the small store *)

Lemma choose_references_breaks_at_low_share_witness :
  order_by_total_weight_desc (vw_cluster_weights demo_db)
    = [] ++ ("big", 6%Q) :: [("small", 2%Q)] /\
  @choose_references (demo_tools ["a"; "b"; "c"] ["b"]) demo_db 2 12
      (9 # 10)%Q None =
    @choose_loop (demo_tools ["a"; "b"; "c"] ["b"]) demo_db 2 12 (9 # 10)%Q
      None (Some (8 # 1)%Q)
      (fetch_cluster_members (ref_cluster_names demo_db))
      [("big", 6%Q)] /\
  @choose_references (demo_tools ["a"; "b"; "c"] ["b"]) demo_db 2 12
      (9 # 10)%Q None =
    ([Invoke EslSfetch; Invoke EslSfetch;
      LogSkipping "big" (6 / (8 # 1) * 100)%Q], inr tt).
Proof.
  destruct (@choose_references_breaks_at_low_share
              (demo_tools ["a"; "b"; "c"] ["b"]) demo_db 2 12 (9 # 10)%Q None
              [] "big" 6%Q [("small", 2%Q)] (8 # 1)%Q
              eq_refl eq_refl eq_refl eq_refl) as (H1 & _ & _ & H4).
  split; [reflexivity|]. split; [exact H1|].
  destruct H4 as [Hb|[e He]].
  - etrans; [exact H1|].
    exact (loop_cons_break demo_db 2 12 (9 # 10)%Q None _ _ _ [] _ Hb).
  - exfalso. revert He. vm_compute. discriminate.
Defined.

Lemma clusters_processed_in_nonincreasing_share_witness :
  StronglySorted weight_desc
    (logged (@choose_references (demo_tools ["a"; "b"; "c"] ["b"]) demo_db
               2 12 0%Q None).1).
Proof.
  destruct (@clusters_processed_in_nonincreasing_share
              (demo_tools ["a"; "b"; "c"] ["b"]) demo_db 2 12 0%Q None)
    as (done & _ & _ & _ & H).
  - repeat constructor; vm_compute; discriminate.
  - exact H.
Defined.

Lemma yielded_refs_carry_cluster_and_share_witness :
  exists name cw tw ref,
    (name, cw) ∈ vw_cluster_weights demo_db /\
    get_total_weight demo_db = Some tw /\
    annotate_ref "big" (6 / (0 + 3 + 3 + 2))%Q (rec_of "a")
      = annotate_ref name (cw / tw)%Q ref.
Proof.
  destruct (@yielded_refs_carry_cluster_and_share
              (demo_tools ["a"; "b"; "c"] ["b"]) demo_db 2 12 0%Q None
              (annotate_ref "big" (6 / (0 + 3 + 3 + 2))%Q (rec_of "a")))
    as (name & cw & tw & refs & qs & ts & names & ref & H1 & H2 & _ & _ & _
        & _ & H3 & _).
  - assert (Hy : yielded (@choose_references
                            (demo_tools ["a"; "b"; "c"] ["b"]) demo_db 2 12
                            0%Q None).1 =
                  [annotate_ref "big" (6 / (0 + 3 + 3 + 2))%Q (rec_of "a");
                   annotate_ref "big" (6 / (0 + 3 + 3 + 2))%Q (rec_of "c")])
      by (vm_compute; reflexivity).
    rewrite Hy. apply list_elem_of_here.
  - exists name, cw, tw, ref. split; [exact H1|]. split; [exact H2|exact H3].
Defined.

Lemma weight_share_needs_positive_total_witness :
  exists e,
    (@choose_references (demo_tools ["a"; "b"; "c"] ["b"]) empty_sequences_db
       2 12 0%Q None).2 = inl e.
Proof.
  exact (proj1 (proj2 (proj2 (proj2
           (@weight_share_needs_positive_total
              (demo_tools ["a"; "b"; "c"] ["b"]) empty_sequences_db 2 12 0%Q
              None)))
           "big" 6%Q [("small", 2%Q)] eq_refl (or_introl eq_refl))).
Defined.

Lemma action_asserts_weights_before_create_database_witness :
  @action empty_weights demo_args =
    ([SqliteConnect "out.db"; DedupInfoToCounts ""], inl AssertionError).
Proof.
  exact (proj1 (@action_asserts_weights_before_create_database
                  empty_weights demo_args "" eq_refl (or_intror eq_refl))).
Defined.


(** * More of select.py and of the action *)

(** ** Dictionaries built pair by pair *)

Lemma foldl_insert_lookup {V} (l : list (string * V)) (d : gmap string V) k :
  foldl (fun d kv => <[kv.1 := kv.2]> d) d l !! k =
  match last_binding k l with Some v => Some v | None => d !! k end.
Proof.
  unfold last_binding. revert d.
  induction l as [|[k' v] l IH]; intros d; [done|].
  cbn [foldl]. rewrite IH, filter_cons. cbn [fst snd].
  destruct (decide (k' = k)) as [->|Hne].
  - rewrite last_cons. destruct (last _); cbn; [done|].
    apply lookup_insert_eq.
  - destruct (last _); cbn; [done|]. by apply lookup_insert_ne.
Qed.

Lemma foldl_insert_dom {V} (l : list (string * V)) (d : gmap string V) :
  dom (foldl (fun d kv => <[kv.1 := kv.2]> d) d l) =
  list_to_set l.*1 ∪ dom d.
Proof.
  revert d. induction l as [|[k v] l IH]; intros d; cbn [foldl].
  - cbn. by rewrite (left_id_L ∅ (∪)).
  - rewrite IH, dom_insert_L. cbn. by rewrite (assoc_L (∪)), (comm_L (∪) _ {[k]}).
Qed.

Lemma size_list_to_set_le (l : list string) :
  (size (list_to_set l : gset string) <= length l)%nat.
Proof.
  induction l as [|x l IH]; cbn [list_to_set length].
  - by rewrite size_empty.
  - rewrite size_union_alt, size_singleton.
    assert (size (list_to_set l ∖ {[x]} : gset string)
            <= size (list_to_set l : gset string))%nat
      by (apply subseteq_size, subseteq_difference_l; done).
    lia.
Qed.

Lemma filter_none {A} (P : A -> Prop) `{forall x, Decision (P x)} l :
  (forall x, x ∈ l -> ~ P x) -> filter P l = [].
Proof.
  induction l as [|x l IH]; intros Hl; [done|].
  rewrite filter_cons_False by (apply Hl; by left).
  apply IH. intros y Hy. apply Hl. by right.
Qed.

(** X1: [dict(pairs)] maps a key to the value of its last pair and holds
    exactly the keys that occur, so it has at most as many entries as there
    are pairs and exactly as many when the keys are distinct. *)
Theorem dict_of_pairs_last_wins (l : list (string * Q)) :
  (forall k, dict_of_pairs l !! k = last_binding k l) /\
  dom (dict_of_pairs l) = list_to_set l.*1 /\
  (size (dict_of_pairs l) <= length l)%nat /\
  (NoDup l.*1 -> size (dict_of_pairs l) = length l /\
                 forall k v, (k, v) ∈ l <-> dict_of_pairs l !! k = Some v).
Proof.
  assert (Hlook : forall k, dict_of_pairs l !! k = last_binding k l).
  { intros k. unfold dict_of_pairs. rewrite foldl_insert_lookup.
    rewrite lookup_empty. by destruct (last_binding k l). }
  assert (Hdom : dom (dict_of_pairs l) = list_to_set l.*1).
  { unfold dict_of_pairs. rewrite foldl_insert_dom, dom_empty_L.
    by rewrite (right_id_L ∅ (∪)). }
  split; [exact Hlook|]. split; [exact Hdom|].
  rewrite <- size_dom, Hdom. split.
  { etrans; [apply size_list_to_set_le|]. by rewrite length_fmap. }
  intros Hnd. split.
  { rewrite size_list_to_set by done. by rewrite length_fmap. }
  intros k v. rewrite Hlook. unfold last_binding. split.
  - intros Hin.
    assert (Hf : filter (fun kv : string * Q => kv.1 = k) l = [(k, v)]).
    { clear Hlook Hdom. induction l as [|[k' v'] l IH]; [by apply elem_of_nil in Hin|].
      cbn in Hnd. apply NoDup_cons in Hnd as [Hk' Hnd].
      rewrite filter_cons. cbn [fst].
      apply elem_of_cons in Hin as [[= <- <-]|Hin].
      - rewrite decide_True by done. f_equal.
        apply filter_none. intros [k2 v2] Hin2 Heq. cbn in Heq.
        subst k2. apply Hk'. apply list_elem_of_fmap. by exists (k, v2).
      - rewrite decide_False; [by apply IH|].
        intros ->. apply Hk'. apply list_elem_of_fmap. by exists (k, v). }
    by rewrite Hf.
  - destruct (last _) as [[k' v']|] eqn:El; [|done]. cbn. intros [= ->].
    apply last_Some_elem_of in El. apply list_elem_of_filter in El as [Hk El].
    cbn in Hk. by subst k'.
Qed.

Lemma dict_of_pairs_last_wins_witness :
  dict_of_pairs [("q1", 3%Q); ("q2", 5%Q); ("q1", 7%Q)] !! "q1" = Some 7%Q /\
  size (dict_of_pairs [("q1", 3%Q); ("q2", 5%Q)]) = 2%nat.
Proof.
  split.
  - exact (proj1 (dict_of_pairs_last_wins
                    [("q1", 3%Q); ("q2", 5%Q); ("q1", 7%Q)]) "q1").
  - refine (proj1 (proj2 (proj2 (proj2 (dict_of_pairs_last_wins
                    [("q1", 3%Q); ("q2", 5%Q)]))) _)).
    apply (bool_decide_eq_true_1 _). vm_compute. reflexivity.
Defined.

(** ** The cluster-info file *)

Lemma foldl_append_lookup (rows : list (string * string))
    (d : gmap string (list string)) c :
  foldl (fun d r => <[r.1 := (d !!! r.1) ++ [r.2]]> d) d rows !!! c =
  (d !!! c) ++ (filter (fun r => r.1 = c) rows).*2.
Proof.
  revert d. induction rows as [|[c' s] rows IH]; intros d; cbn [foldl].
  - cbn. by rewrite app_nil_r.
  - rewrite IH, filter_cons. cbn [fst snd].
    destruct (decide (c' = c)) as [->|Hne].
    + rewrite lookup_total_insert_eq. cbn. by rewrite <- app_assoc.
    + by rewrite lookup_total_insert_ne.
Qed.

Lemma foldl_append_dom (rows : list (string * string))
    (d : gmap string (list string)) :
  dom (foldl (fun d r => <[r.1 := (d !!! r.1) ++ [r.2]]> d) d rows) =
  list_to_set rows.*1 ∪ dom d.
Proof.
  revert d. induction rows as [|[c s] rows IH]; intros d; cbn [foldl].
  - cbn. by rewrite (left_id_L ∅ (∪)).
  - rewrite IH, dom_insert_L. cbn.
    by rewrite (assoc_L (∪)), (comm_L (∪) _ {[c]}).
Qed.

(** X2: [fetch_cluster_members] groups the sequence names of the cluster-info
    rows by cluster, keeping the order of the file; a cluster that has no
    row maps to the empty list, as the [defaultdict] gives on lookup. *)
Theorem fetch_cluster_members_groups_in_file_order
    (rows : list (string * string)) :
  (forall c, fetch_cluster_members rows !!! c =
             (filter (fun r => r.1 = c) rows).*2) /\
  (forall c s, s ∈ fetch_cluster_members rows !!! c <-> (c, s) ∈ rows) /\
  (forall c, c ∉ rows.*1 -> fetch_cluster_members rows !!! c = []) /\
  dom (fetch_cluster_members rows) = list_to_set rows.*1.
Proof.
  assert (Hl : forall c, fetch_cluster_members rows !!! c =
                         (filter (fun r => r.1 = c) rows).*2).
  { intros c. unfold fetch_cluster_members. rewrite foldl_append_lookup.
    by rewrite lookup_total_empty. }
  split; [exact Hl|]. split; [|split].
  - intros c s. rewrite Hl, list_elem_of_fmap. split.
    + intros ([c' s'] & -> & Hin).
      apply list_elem_of_filter in Hin as [Hc Hin].
      cbn in Hc |- *. by subst c'.
    + intros Hin. exists (c, s). split; [done|].
      by apply list_elem_of_filter.
  - intros c Hc. rewrite Hl, filter_none; [done|].
    intros [c' s] Hin Heq. cbn in Heq. subst c'. apply Hc.
    apply list_elem_of_fmap. by exists (c, s).
  - unfold fetch_cluster_members.
    by rewrite foldl_append_dom, dom_empty_L, (right_id_L ∅ (∪)).
Qed.

Lemma fetch_cluster_members_groups_in_file_order_witness :
  fetch_cluster_members (ref_cluster_names demo_db) !!! "big"
    = ["a"; "b"; "c"] /\
  fetch_cluster_members (ref_cluster_names demo_db) !!! "none" = [].
Proof.
  split.
  - exact (proj1 (fetch_cluster_members_groups_in_file_order
                    (ref_cluster_names demo_db)) "big").
  - refine (proj1 (proj2 (proj2 (fetch_cluster_members_groups_in_file_order
                    (ref_cluster_names demo_db)))) "none" _).
    apply (bool_decide_eq_true_1 _). vm_compute. reflexivity.
Defined.

(** ** Annotations *)

Lemma last_binding_elem_of {V} (l : list (string * V)) k v :
  NoDup l.*1 -> (k, v) ∈ l <-> last_binding k l = Some v.
Proof.
  intros Hnd. unfold last_binding. split.
  - intros Hin.
    assert (Hf : filter (fun kv : string * V => kv.1 = k) l = [(k, v)]).
    { induction l as [|[k' v'] l IH]; [by apply elem_of_nil in Hin|].
      cbn in Hnd. apply NoDup_cons in Hnd as [Hk' Hnd].
      rewrite filter_cons. cbn [fst].
      apply elem_of_cons in Hin as [[= <- <-]|Hin].
      - rewrite decide_True by done. f_equal.
        apply filter_none. intros [k2 v2] Hin2 Heq. cbn in Heq.
        subst k2. apply Hk'. apply list_elem_of_fmap. by exists (k, v2).
      - rewrite decide_False; [by apply IH|].
        intros ->. apply Hk'. apply list_elem_of_fmap. by exists (k, v). }
    by rewrite Hf.
  - destruct (last _) as [[k' v']|] eqn:El; [|done]. cbn. intros [= ->].
    apply last_Some_elem_of in El. apply list_elem_of_filter in El as [Hk El].
    cbn in Hk. by subst k'.
Qed.

(** X3: [seqrecord(name, residues, **annotations)] called with keywords
    that are distinct and none of them [name] or [residues] gives a record
    with that identifier and those residues whose annotations are exactly
    the keyword arguments; any other keyword list is a [TypeError]. *)
Theorem seqrecord_holds_its_annotations name residues
    (anns : list (string * annot)) :
  (NoDup anns.*1 ->
   ("name"%string ∉ anns.*1) -> ("residues"%string ∉ anns.*1) ->
   exists r,
     seqrecord name residues anns = inr r /\
     rec_id r = name /\ rec_seq r = residues /\
     dom (annotations r) = list_to_set anns.*1 /\
     forall k v, (k, v) ∈ anns <-> annotations r !! k = Some v) /\
  (~ NoDup anns.*1 \/
   ("name"%string ∈ anns.*1) \/ ("residues"%string ∈ anns.*1) ->
   seqrecord name residues anns = inl TypeError).
Proof.
  unfold seqrecord. split.
  - intros Hnd Hn Hr. rewrite bool_decide_eq_true_2 by done.
    eexists. split; [reflexivity|]. cbn. do 2 (split; [done|]). split.
    + by rewrite foldl_insert_dom, dom_empty_L, (right_id_L ∅ (∪)).
    + intros k v. rewrite foldl_insert_lookup, lookup_empty.
      rewrite (last_binding_elem_of anns k v Hnd).
      by destruct (last_binding k anns).
  - intros Hbad. rewrite bool_decide_eq_false_2; [done|].
    intros (Hnd & Hn & Hr). destruct Hbad as [?|[?|?]]; done.
Qed.

Lemma seqrecord_holds_its_annotations_witness :
  (exists r,
     seqrecord "s1" "ACGT"
       [("weight", ANum 2%Q); ("cluster_name", AStr "big")] = inr r /\
     annotations r !! "weight" = Some (ANum 2%Q)) /\
  seqrecord "s1" "ACGT" [("name", AStr "s2")] = inl TypeError.
Proof.
  split.
  - destruct (proj1 (seqrecord_holds_its_annotations "s1" "ACGT"
                       [("weight", ANum 2%Q); ("cluster_name", AStr "big")]))
      as (r & Hr & _ & _ & _ & Hl).
    + apply (bool_decide_eq_true_1 _). vm_compute. reflexivity.
    + apply (bool_decide_eq_true_1 _). vm_compute. reflexivity.
    + apply (bool_decide_eq_true_1 _). vm_compute. reflexivity.
    + exists r. split; [exact Hr|]. apply Hl. apply list_elem_of_here.
  - apply (proj2 (seqrecord_holds_its_annotations "s1" "ACGT"
                    [("name", AStr "s2")])).
    right; left. apply list_elem_of_here.
Defined.

(** X4: [annotations.update] leaves the identifier, the residues and every
    annotation under another key as they were, and sets each given key to
    the last value given for it.  So a yielded reference keeps what it
    carried, but for [cluster_name] and [weight_prop]. *)
Theorem annotations_update_keeps_other_keys r (kvs : list (string * annot)) :
  rec_id (annotations_update r kvs) = rec_id r /\
  rec_seq (annotations_update r kvs) = rec_seq r /\
  (forall k, annotations (annotations_update r kvs) !! k =
             match last_binding k kvs with
             | Some v => Some v
             | None => annotations r !! k
             end) /\
  (forall name prop k,
     k <> "cluster_name"%string -> k <> "weight_prop"%string ->
     annotations (annotate_ref name prop r) !! k = annotations r !! k).
Proof.
  do 2 (split; [done|]). split.
  - intros k. cbn. apply foldl_insert_lookup.
  - intros name prop k H1 H2. unfold annotate_ref. cbn.
    by rewrite !lookup_insert_ne.
Qed.

Lemma annotations_update_keeps_other_keys_witness :
  annotations (annotate_ref "big" (3 # 4)%Q
                 (annotations_update (rec_of "a") [("weight", ANum 2%Q)]))
    !! "weight"
  = annotations (annotations_update (rec_of "a") [("weight", ANum 2%Q)])
      !! "weight".
Proof.
  refine (proj2 (proj2 (proj2 (annotations_update_keeps_other_keys
            (annotations_update (rec_of "a") [("weight", ANum 2%Q)]) [])))
            "big" (3 # 4)%Q "weight" _ _); discriminate.
Defined.

(** ** The selector: programs run and identifiers returned *)

Lemma runs_in_order_ret {A} (a : A) : runs_in_order [] (ret a).
Proof.
  unfold runs_in_order. cbn. split; [done|]. split; [done|].
  split; [done|]. by intros e [=].
Qed.

Lemma invoked_invoke tl t : invoked (Invoke tl :: t) = tl :: invoked t.
Proof. reflexivity. Qed.

Lemma runs_in_order_check_call {A B} tl rest (x : Z * A) (k : A -> M B) :
  (forall a, runs_in_order rest (k a)) ->
  runs_in_order (tl :: rest) (bind (check_call tl x) k).
Proof.
  intros Hk. destruct (decide (x.1 = 0)) as [E|E].
  - rewrite (bind_value _ _ _ _ (check_call_zero tl x E)).
    destruct (Hk x.2) as (Ht & Hp & Hv & He). unfold runs_in_order.
    cbn [fst snd app]. rewrite invoked_invoke.
    split; [rewrite fmap_cons; by f_equal|]. split; [by apply prefix_cons|].
    split.
    + intros a Ha. f_equal. by eapply Hv.
    + intros e Hr. destruct (He e Hr) as (tl' & code & -> & Hc & Hl).
      exists tl', code. split; [done|]. split; [done|].
      rewrite last_cons. by rewrite Hl.
  - rewrite (bind_raise_eq _ _ _ _ (check_call_nonzero tl x E)).
    unfold runs_in_order. cbn. split; [done|].
    split; [by apply prefix_cons, prefix_nil|]. split; [done|].
    intros e [= <-]. eauto.
Qed.

Section MoreSelect.

Context {tools : ExternalTools}.

Lemma prune_leaves_runs_in_order ref_seqs query_seqs keep threads mpi :
  runs_in_order placement_tools
    (prune_leaves_of ref_seqs query_seqs keep threads mpi).
Proof.
  unfold prune_leaves_of, placement_tools. cbn zeta.
  do 6 (apply runs_in_order_check_call; intros ?).
  apply runs_in_order_ret.
Qed.

Lemma select_inr_inv ref_seqs query_seqs keep threads mpi t ids :
  select_sequences_for_cluster ref_seqs query_seqs keep threads mpi
    = (t, inr ids) ->
  exists t1 reduced,
    _cluster ref_seqs CLUSTER_THRESHOLD = (t1, inr reduced) /\
    ((Z.of_nat (length reduced) <= keep /\ t = t1 /\
      ids = IdList (rec_id <$> reduced))
     \/ (keep < Z.of_nat (length reduced) /\
         exists t2 prune,
           prune_leaves_of reduced query_seqs keep threads mpi
             = (t2, inr prune) /\
           t = t1 ++ t2 /\
           ids = IdSet (list_to_set (rec_id <$> reduced) ∖ prune) /\
           Z.of_nat (size (list_to_set (rec_id <$> reduced) ∖ prune))
             = keep)).
Proof.
  intros H.
  destruct (_cluster ref_seqs CLUSTER_THRESHOLD) as [t1 [e|reduced]] eqn:Hc.
  { unfold select_sequences_for_cluster in H.
    rewrite (bind_raise_eq _ _ _ _ Hc) in H. discriminate. }
  exists t1, reduced. split; [done|].
  destruct (decide (Z.of_nat (length reduced) <= keep)) as [Hle|Hgt].
  - left. rewrite (select_early _ _ _ _ _ _ _ Hc Hle) in H.
    by injection H as <- <-.
  - right. assert (Hlt : keep < Z.of_nat (length reduced)) by lia.
    split; [done|]. by eapply select_late_inr_inv.
Qed.

Lemma select_late_raise ref_seqs query_seqs keep threads mpi
    t reduced t2 e :
  _cluster ref_seqs CLUSTER_THRESHOLD = (t, inr reduced) ->
  keep < Z.of_nat (length reduced) ->
  prune_leaves_of reduced query_seqs keep threads mpi = (t2, inl e) ->
  select_sequences_for_cluster ref_seqs query_seqs keep threads mpi =
    (t ++ t2, inl e).
Proof.
  intros Hc Hlt Hp. rewrite (select_late _ _ _ _ _ _ _ Hc Hlt).
  eapply bind_value_eq; [reflexivity|cbn beta|reflexivity].
  by apply bind_raise_eq.
Qed.

(** X5: whatever path it takes, a value returned by the selector holds at
    most [keep_leaves] identifiers, each the identifier of one of the
    reference sequences passed in. *)
Theorem select_returns_at_most_keep_leaves
    ref_seqs query_seqs keep threads mpi t ids :
  select_sequences_for_cluster ref_seqs query_seqs keep threads mpi
    = (t, inr ids) ->
  Z.of_nat (id_len ids) <= keep /\
  (forall i, id_in i ids = true -> i ∈ rec_id <$> ref_seqs).
Proof.
  intros (t1 & reduced & Hc & [(Hle & _ & ->)|(_ & t2 & prune & _ & _ & ->
                                                 & Hn)])%select_inr_inv.
  - split; [cbn; by rewrite length_fmap|].
    intros i Hi. cbn in Hi. apply bool_decide_eq_true in Hi.
    by eapply cluster_ids_original.
  - split; [cbn; lia|].
    intros i Hi. cbn in Hi. apply bool_decide_eq_true in Hi.
    apply elem_of_difference in Hi as [Hi _].
    apply elem_of_list_to_set in Hi. by eapply cluster_ids_original.
Qed.

(** X6: the selector runs [usearch] first and then, if at all, the alignment,
    reference package, redup file, placement, redup and pruning programs in
    that order, each at most once.  A value comes after [usearch] alone or
    after all seven; [AssertionError] only after all seven; a
    [CalledProcessError] names the program run last. *)
Theorem select_runs_programs_in_order ref_seqs query_seqs keep threads mpi :
  let r := select_sequences_for_cluster ref_seqs query_seqs keep threads
             mpi in
  invoked r.1 `prefix_of` Usearch :: placement_tools /\
  (forall ids, r.2 = inr ids ->
     match ids with
     | IdList _ => invoked r.1 = [Usearch]
     | IdSet _ => invoked r.1 = Usearch :: placement_tools
     end) /\
  (r.2 = inl AssertionError -> invoked r.1 = Usearch :: placement_tools) /\
  (forall tl code, r.2 = inl (CalledProcessError tl code) ->
     code <> 0 /\ last (invoked r.1) = Some tl).
Proof.
  intros r. subst r.
  destruct (decide ((usearch_run ref_seqs CLUSTER_THRESHOLD).1 = 0))
    as [E|E].
  2:{ unfold select_sequences_for_cluster.
      rewrite (bind_raise_eq _ _ _ _ (cluster_nonzero _ _ E)). cbn.
      split; [by apply prefix_cons, prefix_nil|].
      split; [done|]. split; [done|]. by intros tl code [= <- <-]. }
  pose proof (cluster_zero _ _ E) as Hc.
  set (reduced := filter _ ref_seqs) in Hc.
  destruct (decide (Z.of_nat (length reduced) <= keep)) as [Hle|Hgt].
  { rewrite (select_early _ query_seqs _ threads mpi _ _ Hc Hle). cbn.
    split; [by apply prefix_cons, prefix_nil|].
    split; [by intros ids [= <-]|]. split; [done|]. by intros ? ? [=]. }
  assert (Hlt : keep < Z.of_nat (length reduced)) by lia.
  destruct (prune_leaves_runs_in_order reduced query_seqs keep threads mpi)
    as (_ & Hp & Hv & He).
  destruct (prune_leaves_of reduced query_seqs keep threads mpi)
    as [t2 [e|prune]] eqn:Hpl; cbn [fst snd] in *.
  - rewrite (select_late_raise _ _ _ _ _ _ _ _ _ Hc Hlt Hpl).
    cbn [fst snd]. rewrite invoked_app.
    change (invoked [Invoke Usearch; LogClustered (length ref_seqs)
                       (size (seed_ids ref_seqs CLUSTER_THRESHOLD))])
      with [Usearch]. cbn [app].
    destruct (He e eq_refl) as (tl & code & -> & Hcode & Hl).
    split; [by apply prefix_cons|]. split; [done|]. split; [done|].
    intros tl' code' [= <- <-]. split; [done|].
    rewrite last_cons. by rewrite Hl.
  - rewrite (select_late_pruned _ _ _ _ _ _ _ _ _ Hc Hlt Hpl).
    cbn [fst snd]. rewrite invoked_app.
    change (invoked [Invoke Usearch; LogClustered (length ref_seqs)
                       (size (seed_ids ref_seqs CLUSTER_THRESHOLD))])
      with [Usearch]. cbn [app]. rewrite (Hv prune eq_refl).
    split; [done|]. destruct (_ =? keep); split; try done.
    by intros ids [= <-].
Qed.

End MoreSelect.

Lemma select_returns_at_most_keep_leaves_witness :
  Z.of_nat (id_len (IdList ["a"])) <= 2.
Proof.
  exact (proj1 (@select_returns_at_most_keep_leaves (demo_tools ["a"] [])
                  abc [] 2 12 None [Invoke Usearch; LogClustered 3 1]
                  (IdList ["a"]) eq_refl)).
Defined.

Lemma select_runs_programs_in_order_witness :
  invoked (@select_sequences_for_cluster (demo_tools ["a"; "b"; "c"] [])
             abc [] 2 12 None).1 = Usearch :: placement_tools.
Proof.
  exact (proj1 (proj2 (proj2 (@select_runs_programs_in_order
                  (demo_tools ["a"; "b"; "c"] []) abc [] 2 12 None)))
           eq_refl).
Defined.

(** ** Clustering counts *)

Section MoreCluster.

Context {tools : ExternalTools}.

(** X7: [_cluster] never returns more records than it was given.  When the
    input identifiers are distinct and the seeds reported are identifiers of
    the input, it returns as many records as there are seeds, which is the
    number its log record gives; in general the number logged is at most the
    number returned. *)
Theorem cluster_count_matches_seeds sequences threshold t out :
  _cluster sequences threshold = (t, inr out) ->
  (length out <= length sequences)%nat /\
  (seed_ids sequences threshold ⊆ list_to_set (rec_id <$> sequences) ->
   (size (seed_ids sequences threshold) <= length out)%nat) /\
  (NoDup (rec_id <$> sequences) ->
   seed_ids sequences threshold ⊆ list_to_set (rec_id <$> sequences) ->
   length out = size (seed_ids sequences threshold) /\
   t = [Invoke Usearch; LogClustered (length sequences) (length out)]).
Proof.
  intros (_ & -> & ->)%cluster_inr_inv.
  set (S := seed_ids sequences threshold).
  set (out := filter (fun i => rec_id i ∈ S) sequences).
  assert (Hset : S ⊆ list_to_set (rec_id <$> sequences) ->
                 list_to_set (rec_id <$> out) = S).
  { intros Hsub. apply set_eq. intros i.
    rewrite elem_of_list_to_set, list_elem_of_fmap. split.
    - intros (x & -> & Hx). apply list_elem_of_filter in Hx. tauto.
    - intros Hi. specialize (Hsub i Hi).
      apply elem_of_list_to_set, list_elem_of_fmap in Hsub as (x & -> & Hx).
      exists x. split; [done|]. apply list_elem_of_filter. tauto. }
  split; [apply length_filter|]. split.
  - intros Hsub. rewrite <- (Hset Hsub). etrans; [apply size_list_to_set_le|].
    by rewrite length_fmap.
  - intros Hnd Hsub.
    assert (Hlen : length out = size S).
    { rewrite <- (Hset Hsub), size_list_to_set, length_fmap; [done|].
      apply (sublist_NoDup _ (rec_id <$> sequences));
        first [exact Hnd|apply fmap_sublist, sublist_filter]. }
    split; [done|]. by rewrite Hlen.
Qed.

End MoreCluster.

Lemma cluster_count_matches_seeds_witness :
  length [rec_of "a"; rec_of "c"] =
    size (@seed_ids (demo_tools ["c"; "a"] []) abc CLUSTER_THRESHOLD).
Proof.
  refine (proj1 (proj2 (proj2 (@cluster_count_matches_seeds
            (demo_tools ["c"; "a"] []) abc CLUSTER_THRESHOLD
            [Invoke Usearch; LogClustered 3 2] [rec_of "a"; rec_of "c"] _))
            _ _)).
  - vm_compute. reflexivity.
  - apply (bool_decide_eq_true_1 _). vm_compute. reflexivity.
  - apply (bool_decide_eq_true_1 _). vm_compute. reflexivity.
Defined.

(** ** The ordered query *)

Lemma insert_desc_perm r l : insert_desc r l ≡ₚ r :: l.
Proof.
  induction l as [|x l IH]; cbn; [done|].
  destruct (Qle_bool x.2 r.2); [done|].
  rewrite IH. apply Permutation_swap.
Qed.

Lemma order_by_perm (rows : list (string * Q)) :
  order_by_total_weight_desc rows ≡ₚ rows.
Proof.
  induction rows as [|r rows IH]; cbn; [done|].
  by rewrite insert_desc_perm, IH.
Qed.

(** ** Query weights *)

(** X9: the loop that sets [annotations['weight']] gives back the query
    sequences in the same order, each with its hit weight under [weight] and
    otherwise unchanged, when every identifier is a key of the hit dict; at
    the first identifier that is not, it raises [KeyError] for that
    identifier.  It runs no program and logs nothing either way. *)
Theorem query_weights_set_or_key_error (d : gmap string Q)
    (qs : list SeqRecord) :
  (Forall (fun i => is_Some (d !! rec_id i)) qs ->
   exists qs', mapM (set_weight d) qs = ([], inr qs') /\
               Forall2 (weight_set d) qs qs') /\
  (forall pre i post,
     qs = pre ++ i :: post ->
     Forall (fun i => is_Some (d !! rec_id i)) pre ->
     d !! rec_id i = None ->
     mapM (set_weight d) qs = ([], inl (KeyError (rec_id i)))).
Proof.
  split.
  - induction 1 as [|i qs [w Hw] _ (qs' & IH & Hqs')].
    + by exists [].
    + exists (annotations_update i [("weight"%string, ANum w)] :: qs').
      split.
      * cbn [mapM]. unfold set_weight at 1. rewrite Hw.
        eapply bind_value_eq; [reflexivity|cbn beta|reflexivity].
        eapply bind_value_eq; [exact IH|cbn beta|reflexivity]. reflexivity.
      * constructor; [by exists w|done].
  - intros pre i post -> Hpre Hi.
    induction Hpre as [|j pre [w Hw] _ IH]; cbn [app mapM].
    + apply bind_raise_eq. unfold set_weight. by rewrite Hi.
    + unfold set_weight at 1. rewrite Hw.
      eapply bind_value_eq; [reflexivity|cbn beta|reflexivity].
      by apply bind_raise_eq.
Qed.

Lemma query_weights_set_or_key_error_witness :
  mapM (set_weight (dict_of_pairs [("q1", 3%Q)])) [rec_of "q1"; rec_of "q9"]
    = ([], inl (KeyError "q9")).
Proof.
  refine (proj2 (query_weights_set_or_key_error
                   (dict_of_pairs [("q1", 3%Q)]) [rec_of "q1"; rec_of "q9"])
            [rec_of "q1"] (rec_of "q9") [] eq_refl _ _).
  - repeat constructor. exists 3%Q. vm_compute. reflexivity.
  - vm_compute. reflexivity.
Defined.

(** ** More on the loop of [choose_references] *)

Lemma yielded_after_cluster_log a b c p n t :
  yielded (Invoke a :: Invoke b :: LogCluster c p n :: t) = yielded t.
Proof. reflexivity. Qed.

Lemma quiet_not_skipping t : logged t = [] -> Forall not_skipping t.
Proof.
  induction t as [|e t IH]; [constructor|].
  destruct e; cbn; try discriminate; intros H; constructor; auto; exact I.
Qed.

Lemma filter_ids_length names (refs : list SeqRecord) :
  NoDup (rec_id <$> refs) ->
  (length (filter (fun i => id_in (rec_id i) names = true) refs)
   <= id_len names)%nat.
Proof.
  intros Hnd.
  set (F := filter (fun i => id_in (rec_id i) names = true) refs).
  assert (HF : NoDup (rec_id <$> F)).
  { apply (sublist_NoDup _ (rec_id <$> refs));
      first [exact Hnd|apply fmap_sublist, sublist_filter]. }
  assert (Hin : forall x, x ∈ rec_id <$> F -> id_in x names = true).
  { intros x (i & -> & Hi)%list_elem_of_fmap.
    by apply list_elem_of_filter in Hi as [Hi _]. }
  rewrite <- (length_fmap rec_id F).
  destruct names as [l|s]; cbn [id_len id_in] in *.
  - apply submseteq_length, NoDup_submseteq; [done|].
    intros x Hx. apply Hin in Hx. by apply bool_decide_eq_true in Hx.
  - change (size s) with (length (elements s)).
    apply submseteq_length, NoDup_submseteq; [done|].
    intros x Hx. apply elem_of_elements. apply Hin in Hx.
    by apply bool_decide_eq_true in Hx.
Qed.

Section MoreChoose.

Context {tools : ExternalTools}.
Variables (db : Db) (refs_per_cluster threads : Z) (min_cluster_prop : Q)
          (mpi_args : option (list string)).

Abbreviation body' :=
  (choose_body db refs_per_cluster threads min_cluster_prop mpi_args).
Abbreviation loop' :=
  (choose_loop db refs_per_cluster threads min_cluster_prop mpi_args).

(** X10: a query sequence that the fetch returns but the hit dict does not
    hold stops the run with [KeyError] right after the two fetches: before
    the share is computed (so also when the total weight is NULL or zero),
    and with nothing logged, clustered or yielded. *)
Theorem missing_hit_raises_key_error_first tot cm name cw refs pre i post :
  let d := dict_of_pairs (cluster_hit_seqs db name) in
  esl_sfetch_seqs (ref_fasta db) (cm !!! name)
    = ([Invoke EslSfetch], inr refs) ->
  esl_sfetch_seqs (fasta_file db) (map_to_list d).*1
    = ([Invoke EslSfetch], inr (pre ++ i :: post)) ->
  Forall (fun i => is_Some (d !! rec_id i)) pre ->
  d !! rec_id i = None ->
  forall rest,
    loop' tot cm ((name, cw) :: rest) =
      ([Invoke EslSfetch; Invoke EslSfetch], inl (KeyError (rec_id i))).
Proof.
  intros d E1 E2 Hpre Hi rest.
  assert (E3 : mapM (set_weight d) (pre ++ i :: post)
               = ([], inl (KeyError (rec_id i)))).
  { clear E2. induction Hpre as [|j pre [w Hw] _ IH]; cbn [app mapM].
    - apply bind_raise_eq. unfold set_weight. by rewrite Hi.
    - unfold set_weight at 1. rewrite Hw.
      eapply bind_value_eq; [reflexivity|cbn beta|reflexivity].
      by apply bind_raise_eq. }
  assert (Hb : body' tot cm (name, cw) =
               ([Invoke EslSfetch; Invoke EslSfetch],
                inl (KeyError (rec_id i)))).
  { unfold choose_body. cbn [fst snd]. fold d.
    eapply bind_value_eq; [exact E1|cbn beta|reflexivity].
    eapply bind_value_eq; [exact E2|cbn beta|reflexivity].
    by apply bind_raise_eq. }
  rewrite (loop_cons_raise _ _ _ _ _ _ _ _ _ (KeyError (rec_id i)))
    by (by rewrite Hb).
  by rewrite Hb.
Qed.

Lemma body_not_skipping tot cm name cw :
  (min_cluster_prop <= 0)%Q -> (0 <= cw)%Q ->
  (forall tw, tot = Some tw -> (0 <= tw)%Q) ->
  Forall not_skipping (body' tot cm (name, cw)).1.
Proof.
  intros Hmin Hcw Htot.
  destruct (body_spec db refs_per_cluster threads min_cluster_prop mpi_args
              tot cm name cw)
    as [(e & _ & [Hl _] & _)|[(tw & -> & _ & Hlow & _)
       |(tw & refs & qs0 & qs & ts & r & _ & _ & _ & _ & _ & _ & Hs & Hb)]].
  - by apply quiet_not_skipping.
  - exfalso. unfold Qlt_bool in Hlow. apply negb_true_iff in Hlow.
    assert (Hle : (min_cluster_prop <= cw / tw)%Q).
    { eapply Qle_trans; [exact Hmin|]. unfold Qdiv.
      apply Qmult_le_0_compat; [done|]. apply Qinv_le_0_compat. by apply Htot. }
    apply Qle_bool_iff in Hle. congruence.
  - rewrite Hb. cbn [fst].
    pose proof (select_quiet threads mpi_args refs qs refs_per_cluster)
      as [Hq _].
    rewrite Hs in Hq. cbn [fst] in Hq.
    apply Forall_app. split; [repeat constructor|].
    apply Forall_app. split; [by apply quiet_not_skipping|].
    destruct r; [constructor|]. apply Forall_fmap, Forall_true. by intros ?.
Qed.

Lemma loop_not_skipping tot cm rows :
  (min_cluster_prop <= 0)%Q ->
  Forall (fun r => 0 <= r.2)%Q rows ->
  (forall tw, tot = Some tw -> (0 <= tw)%Q) ->
  Forall not_skipping (loop' tot cm rows).1.
Proof.
  intros Hmin Hrows Htot.
  induction Hrows as [|[name cw] rows Hr _ IH]; [constructor|].
  rewrite loop_cons, bind_fst. apply Forall_app. split.
  - by apply body_not_skipping.
  - destruct (body' tot cm (name, cw)).2 as [e|[|]]; [constructor|done|].
    constructor.
Qed.

(** X11: with [min_cluster_prop] at most zero, as by default, and no negative
    weight in the store, no cluster is skipped: the trace of the run holds no
    skip record, so the loop never breaks. *)
Theorem default_threshold_never_skips :
  (min_cluster_prop <= 0)%Q ->
  Forall (fun r => 0 <= r.2)%Q (sequences db) ->
  Forall (fun r => 0 <= r.2)%Q (vw_cluster_weights db) ->
  forall c pct,
    LogSkipping c pct ∉
      (choose_references db refs_per_cluster threads min_cluster_prop
         mpi_args).1.
Proof.
  intros Hmin Hseq Hvw c pct Hin. unfold choose_references in Hin.
  assert (Hrows : Forall (fun r => 0 <= r.2)%Q
                    (order_by_total_weight_desc (vw_cluster_weights db))).
  { apply Forall_forall. intros r Hr.
    apply (proj1 (order_by_elem_of _ _)) in Hr.
    by eapply Forall_forall in Hvw. }
  pose proof (loop_not_skipping (get_total_weight db)
                (fetch_cluster_members (ref_cluster_names db)) _ Hmin Hrows
                (fun tw => total_weight_nonneg db tw Hseq)) as Hns.
  eapply Forall_forall in Hns; [|exact Hin]. exact Hns.
Qed.

(** X12: in one pass of the loop, when the references fetched for the cluster
    have distinct identifiers (and [refs_per_cluster] is not negative), at
    most [refs_per_cluster] records are yielded. *)
Theorem yields_per_cluster_at_most_keep tot cm name cw :
  0 <= refs_per_cluster ->
  NoDup (rec_id <$> (esl_sfetch_run (ref_fasta db) (cm !!! name)).2) ->
  Z.of_nat (length (yielded (body' tot cm (name, cw)).1))
    <= refs_per_cluster.
Proof.
  intros Hkeep Hnd.
  destruct (body_spec db refs_per_cluster threads min_cluster_prop mpi_args
              tot cm name cw)
    as [(e & _ & [_ Hy] & _)|[(tw & _ & _ & _ & Hb)
       |(tw & refs & qs0 & qs & ts & r & _ & _ & _ & Hf & _ & _ & Hs & Hb)]].
  - by rewrite Hy.
  - by rewrite Hb.
  - rewrite Hb. cbn [fst].
    pose proof (select_quiet threads mpi_args refs qs refs_per_cluster)
      as [_ Hq].
    rewrite Hs in Hq. cbn [fst] in Hq.
    cbn [app]. rewrite yielded_after_cluster_log, yielded_app, Hq.
    cbn [app]. destruct r as [e|names]; [done|].
    rewrite yielded_yields, length_fmap.
    apply check_call_inr_inv in Hf as (_ & -> & _).
    pose proof (filter_ids_length names _ Hnd) as Hlen.
    destruct (select_inr_inv _ _ _ _ _ _ _ Hs)
      as (t1 & reduced & Hc & [(Hle & _ & ->)|(_ & t2 & prune & _ & _ & ->
                                                 & Hn)]);
      cbn [id_len] in Hlen.
    + rewrite length_fmap in Hlen. lia.
    + lia.
Qed.

Lemma body_yield_prop tot cm name cw y :
  y ∈ yielded (body' tot cm (name, cw)).1 ->
  exists tw, tot = Some tw /\ weight_prop_of y = Some (cw / tw)%Q.
Proof.
  intros (tw & refs & qs & ts & names & ref & -> & _ & _ & _ & _ & _ & _
          & ->)%body_yielded.
  exists tw. split; [done|]. unfold weight_prop_of.
  by destruct (annotate_ref_lookup name (cw / tw)%Q ref) as (_ & _ & _ & ->).
Qed.

Lemma same_prop_sorted p (l : list SeqRecord) :
  (forall y, y ∈ l -> weight_prop_of y = Some p) ->
  StronglySorted prop_desc l.
Proof.
  induction l as [|y l IH]; intros Hl; [constructor|].
  constructor.
  - apply IH. intros z Hz. apply Hl. by right.
  - apply Forall_forall. intros z Hz. exists p, p.
    split; [apply Hl; by left|]. split; [apply Hl; by right|apply Qle_refl].
Qed.

Lemma loop_yields_sorted tot cm rows :
  (forall tw, tot = Some tw -> (0 <= tw)%Q) ->
  StronglySorted weight_desc rows ->
  StronglySorted prop_desc (yielded (loop' tot cm rows).1).
Proof.
  intros Htot. induction 1 as [|[name cw] rows Hs IH Hr]; [constructor|].
  rewrite loop_cons, bind_fst, yielded_app.
  apply StronglySorted_app_2.
  - intros y1 y2 H1 H2.
    destruct (body' tot cm (name, cw)).2 as [e|[|]];
      try (by apply elem_of_nil in H2).
    apply body_yield_prop in H1 as (tw & Htw & H1).
    apply loop_yielded in H2 as ([name' cw'] & Hin & H2).
    apply body_yield_prop in H2 as (tw' & Htw' & H2).
    assert (tw' = tw) as -> by congruence.
    exists (cw / tw)%Q, (cw' / tw)%Q. do 2 (split; [done|]).
    apply share_monotone; [by apply Htot|].
    eapply Forall_forall in Hr; [|exact Hin]. exact Hr.
  - destruct (yielded (body' tot cm (name, cw)).1) as [|y0 l0] eqn:Ey;
      [constructor|].
    assert (Hy0 : y0 ∈ yielded (body' tot cm (name, cw)).1)
      by (rewrite Ey; by left).
    apply body_yield_prop in Hy0 as (tw & Htw & _).
    apply (same_prop_sorted (cw / tw)%Q). intros y Hy.
    rewrite <- Ey in Hy. apply body_yield_prop in Hy as (tw' & Htw' & Hy).
    congruence.
  - destruct (body' tot cm (name, cw)).2 as [e|[|]]; [constructor|done|].
    constructor.
Qed.

(** X13: when no sequence weight is negative, the records come out of the
    generator ordered by [weight_prop]: each carries a number under that
    key, and it is never larger than that of a record yielded before it. *)
Theorem references_yielded_by_falling_weight_prop :
  Forall (fun r => 0 <= r.2)%Q (sequences db) ->
  StronglySorted prop_desc
    (yielded (choose_references db refs_per_cluster threads min_cluster_prop
                mpi_args).1).
Proof.
  intros Hseq. unfold choose_references. apply loop_yields_sorted.
  - intros tw. by apply total_weight_nonneg.
  - apply order_by_sorted.
Qed.

End MoreChoose.

(** ** Which clusters a run reaches *)

Section ProcessedOnce.

Context {tools : ExternalTools}.
Variables (db : Db) (refs_per_cluster threads : Z) (min_cluster_prop : Q)
          (mpi_args : option (list string)).

Lemma loop_logged_all tot cm rows :
  (choose_loop db refs_per_cluster threads min_cluster_prop mpi_args
     tot cm rows).2 = inr tt ->
  Forall not_skipping
    (choose_loop db refs_per_cluster threads min_cluster_prop mpi_args
       tot cm rows).1 ->
  (logged (choose_loop db refs_per_cluster threads min_cluster_prop mpi_args
             tot cm rows).1).*1 = rows.*1.
Proof.
  induction rows as [|[name cw] rest IH]; [done|].
  pose proof (body_spec db refs_per_cluster threads min_cluster_prop mpi_args
                tot cm name cw) as Hspec.
  pose proof (body_logged db refs_per_cluster threads min_cluster_prop
                mpi_args tot cm name cw) as Hlog.
  cbn zeta in Hspec, Hlog.
  destruct (choose_body db refs_per_cluster threads min_cluster_prop mpi_args
              tot cm (name, cw)) as [tb [e|[|]]] eqn:Eb.
  - rewrite (loop_cons_raise _ _ _ _ _ _ _ _ _ e) by (by rewrite Eb).
    discriminate.
  - rewrite (loop_cons_continue _ _ _ _ _ _ _ _ _ _ Eb). cbn [fst snd].
    intros Hres [_ Hns]%Forall_app. rewrite logged_app, fmap_app.
    rewrite (IH Hres Hns).
    destruct Hlog as [[_ [e [=]]]|(tw & _ & _ & Hl)]. cbn [fst] in Hl.
    by rewrite Hl.
  - rewrite (loop_cons_break _ _ _ _ _ _ _ _ _ _ Eb). cbn [fst snd].
    intros _ Hns. exfalso.
    destruct Hspec as [(e & [=] & _)|[(tw & _ & _ & _ & [= -> ])
                      |(tw & ? & ? & ? & ? & r & _ & _ & _ & _ & _ & _ & _
                          & [= _ Hr])]].
    + apply Forall_cons in Hns as [_ Hns].
      apply Forall_cons in Hns as [_ Hns].
      by apply Forall_cons in Hns as [Hns _].
    + by destruct r.
Qed.

(** X8: the clusters a run reaches (those with a log record) are rows of the
    weights view and none is reached more often than it occurs there; a run
    that ends without an exception and without skipping a cluster has
    reached every row of the view, each once. *)
Theorem every_cluster_reached_at_most_once :
  let run := choose_references db refs_per_cluster threads min_cluster_prop
               mpi_args in
  (logged run.1).*1 ⊆+ (vw_cluster_weights db).*1 /\
  (run.2 = inr tt -> Forall not_skipping run.1 ->
   (logged run.1).*1 ≡ₚ (vw_cluster_weights db).*1).
Proof.
  intros run. subst run. unfold choose_references. split.
  - destruct (loop_logged db refs_per_cluster threads min_cluster_prop
                mpi_args (get_total_weight db)
                (fetch_cluster_members (ref_cluster_names db))
                (order_by_total_weight_desc (vw_cluster_weights db)))
      as (done & [k Hk] & -> & _).
    rewrite <- (order_by_perm (vw_cluster_weights db)), Hk, fmap_app.
    by apply submseteq_inserts_r.
  - intros Hres Hns. rewrite (loop_logged_all _ _ _ Hres Hns).
    by rewrite order_by_perm.
Qed.

End ProcessedOnce.

Lemma every_cluster_reached_at_most_once_witness :
  (logged (@choose_references (demo_tools ["a"; "b"; "c"; "d"] ["b"]) demo_db
             2 12 0%Q None).1).*1 ≡ₚ ["small"; "big"].
Proof.
  refine (proj2 (@every_cluster_reached_at_most_once
                   (demo_tools ["a"; "b"; "c"; "d"] ["b"]) demo_db 2 12 0%Q
                   None) _ _).
  - vm_compute. reflexivity.
  - vm_compute. repeat constructor.
Defined.

Lemma missing_hit_raises_key_error_first_witness :
  @choose_loop stray_fetch demo_db 2 12 0%Q None None
    (fetch_cluster_members (ref_cluster_names demo_db)) [("big", 6%Q)] =
    ([Invoke EslSfetch; Invoke EslSfetch], inl (KeyError "zz")).
Proof.
  refine (@missing_hit_raises_key_error_first stray_fetch demo_db 2 12 0%Q
            None None (fetch_cluster_members (ref_cluster_names demo_db))
            "big" 6%Q [rec_of "a"; rec_of "b"; rec_of "c"] [] (rec_of "zz") []
            _ _ _ _ []).
  - vm_compute. reflexivity.
  - vm_compute. reflexivity.
  - constructor.
  - vm_compute. reflexivity.
Defined.

Lemma default_threshold_never_skips_witness :
  LogSkipping "small" 25%Q ∉
    (@choose_references (demo_tools ["a"; "b"; "c"] ["b"]) demo_db 2 12 0%Q
       None).1.
Proof.
  refine (@default_threshold_never_skips (demo_tools ["a"; "b"; "c"] ["b"])
            demo_db 2 12 0%Q None _ _ _ "small" 25%Q).
  - vm_compute. discriminate.
  - repeat constructor; vm_compute; discriminate.
  - repeat constructor; vm_compute; discriminate.
Defined.

Lemma yields_per_cluster_at_most_keep_witness :
  Z.of_nat (length (yielded
    (@choose_body (demo_tools ["a"; "b"; "c"] ["b"]) demo_db 2 12 0%Q None
       (Some 8%Q) (fetch_cluster_members (ref_cluster_names demo_db))
       ("big", 6%Q)).1)) <= 2.
Proof.
  refine (@yields_per_cluster_at_most_keep (demo_tools ["a"; "b"; "c"] ["b"])
            demo_db 2 12 0%Q None (Some 8%Q)
            (fetch_cluster_members (ref_cluster_names demo_db)) "big" 6%Q
            _ _).
  - vm_compute. discriminate.
  - apply (bool_decide_eq_true_1 _). vm_compute. reflexivity.
Defined.

Lemma references_yielded_by_falling_weight_prop_witness :
  StronglySorted prop_desc
    (yielded (@choose_references (demo_tools ["a"; "b"; "c"; "d"] ["b"])
                demo_db 2 12 0%Q None).1).
Proof.
  refine (@references_yielded_by_falling_weight_prop
            (demo_tools ["a"; "b"; "c"; "d"] ["b"]) demo_db 2 12 0%Q None _).
  repeat constructor; vm_compute; discriminate.
Defined.

(** ** More on the action *)

Lemma run_action_without_failures (search : SearchModule) args :
  @run_action (no_failures search) args = @action search args.
Proof.
  unfold run_action, action. cbn -[truthy].
  destruct (weights args) as [fp|]; cbn -[truthy]; [|done].
  by destruct (truthy (dedup_info_to_counts fp)).
Qed.

Section MoreAction.

Context {env : ActionEnv}.

(** The run of the action, case by case. *)
Lemma run_action_cases args :
  run_action args =
  match connect_raises (output args) with
  | Some e => ([SqliteConnect (output args)], inl e)
  | None =>
      match weights args with
      | None =>
          ([SqliteConnect (output args);
            CreateDatabase (sequence_file args) None (verbosity args =? 0)],
           match create_database_raises args None with
           | Some e => inl e
           | None => inr tt
           end)
      | Some fp =>
          match parse_dedup fp with
          | inl e =>
              ([SqliteConnect (output args); DedupInfoToCounts fp], inl e)
          | inr w =>
              if truthy w then
                ([SqliteConnect (output args); DedupInfoToCounts fp;
                  CreateDatabase (sequence_file args) w
                    (verbosity args =? 0)],
                 match create_database_raises args w with
                 | Some e => inl e
                 | None => inr tt
                 end)
              else
                ([SqliteConnect (output args); DedupInfoToCounts fp],
                 inl AssertionError)
          end
      end
  end.
Proof.
  unfold run_action.
  destruct (connect_raises (output args)) as [e|]; [done|].
  destruct (weights args) as [fp|].
  - destruct (parse_dedup fp) as [e|w]; [done|].
    cbn -[truthy]. destruct (truthy w); [|done].
    cbn. by destruct (create_database_raises args w).
  - cbn. by destruct (create_database_raises args None).
Qed.

(** X14: [search.create_database] is called at most once and as the last
    step, only after [sqlite3.connect] returned, for the query file of the
    command line and quiet exactly at verbosity 0; it gets no weights when no
    weights file was given and else the parsed mapping, which is then not
    empty.  The action returns normally only if that call was made and did
    not raise; an exception of [sqlite3.connect] ends the action with that
    exception before anything else is done. *)
Theorem create_database_called_last_with_parsed_weights args :
  let r := run_action args in
  (forall sf w q, CreateDatabase sf w q ∈ r.1 ->
     connect_raises (output args) = None /\
     sf = sequence_file args /\ q = (verbosity args =? 0) /\
     r.1 = removelast r.1 ++ [CreateDatabase sf w q] /\
     (forall sf' w' q', CreateDatabase sf' w' q' ∉ removelast r.1) /\
     match w with
     | None => weights args = None
     | Some m => m <> ∅ /\
                 exists fp, weights args = Some fp /\
                            parse_dedup fp = inr (Some m)
     end) /\
  (r.2 = inr tt ->
   exists w, CreateDatabase (sequence_file args) w (verbosity args =? 0)
               ∈ r.1 /\
             create_database_raises args w = None) /\
  (forall e, connect_raises (output args) = Some e ->
     r = ([SqliteConnect (output args)], inl e)).
Proof.
  intros r. subst r. rewrite run_action_cases.
  destruct (connect_raises (output args)) as [e|] eqn:Hc.
  { split; [|split].
    - intros sf w q Hin. apply list_elem_of_singleton in Hin. discriminate.
    - intros [=].
    - by intros ? [= <-]. }
  split; [|split]; [| |by intros ? [=]].
  - intros sf w q Hin. split; [done|].
    destruct (weights args) as [fp|] eqn:Hw.
    + destruct (parse_dedup fp) as [e|w0] eqn:Hp.
      { cbn in Hin. apply list_elem_of_In in Hin. cbn in Hin.
        destruct Hin as [H|[H|[]]]; discriminate. }
      destruct (truthy w0) eqn:Ht.
      2:{ cbn in Hin. apply list_elem_of_In in Hin. cbn in Hin.
          destruct Hin as [H|[H|[]]]; discriminate. }
      cbn [fst] in Hin |- *. apply list_elem_of_In in Hin. cbn in Hin.
      destruct Hin as [H|[H|[H|[]]]]; try discriminate.
      injection H as <- <- <-. do 2 (split; [done|]). cbn [removelast app].
      split; [done|]. split.
      { intros sf' w' q' Hin. apply list_elem_of_In in Hin. cbn in Hin.
        destruct Hin as [H|[H|[]]]; discriminate. }
      destruct w0 as [m|]; [|discriminate]. split.
      * intros ->. cbn in Ht. by rewrite bool_decide_eq_true_2 in Ht.
      * by exists fp.
    + cbn [fst] in Hin |- *. apply list_elem_of_In in Hin. cbn in Hin.
      destruct Hin as [H|[H|[]]]; try discriminate.
      injection H as <- <- <-. do 2 (split; [done|]). cbn [removelast app].
      split; [done|]. split; [|done].
      intros sf' w' q' Hin. apply list_elem_of_singleton in Hin.
      discriminate.
  - destruct (weights args) as [fp|].
    + destruct (parse_dedup fp) as [e|w0]; [intros [=]|].
      destruct (truthy w0); [|intros [=]]. cbn [fst snd].
      destruct (create_database_raises args w0) eqn:Hcr; [intros [=]|].
      intros _. exists w0. split; [|done].
      do 2 apply list_elem_of_further. apply list_elem_of_here.
    + cbn [fst snd].
      destruct (create_database_raises args None) eqn:Hcr; [intros [=]|].
      intros _. exists None. split; [|done].
      apply list_elem_of_further, list_elem_of_here.
Qed.

End MoreAction.

Lemma create_database_called_last_with_parsed_weights_witness :
  @run_action unopenable demo_args =
    ([SqliteConnect "out.db"], inl (OtherError "OperationalError")) /\
  exists w, CreateDatabase "q.fasta" w true
              ∈ (@run_action (no_failures one_weight) demo_args).1.
Proof.
  split.
  - exact (proj2 (proj2 (@create_database_called_last_with_parsed_weights
                           unopenable demo_args))
             (OtherError "OperationalError") eq_refl).
  - destruct (proj1 (proj2 (@create_database_called_last_with_parsed_weights
                              (no_failures one_weight) demo_args)) eq_refl)
      as (w & Hin & _).
    exists w. exact Hin.
Defined.

(** ** Small clusters *)

Section SmallCluster.

Context {tools : ExternalTools}.

(** X15: given no more reference sequences than [keep_leaves], the selector
    runs [usearch] and nothing else: once [usearch] exits zero it returns the
    identifiers of the clustered references, in input order, and cannot
    raise [AssertionError]. *)
Theorem small_cluster_skips_placement ref_seqs query_seqs keep threads mpi :
  Z.of_nat (length ref_seqs) <= keep ->
  let r := select_sequences_for_cluster ref_seqs query_seqs keep threads
             mpi in
  invoked r.1 = [Usearch] /\
  r.2 <> inl AssertionError /\
  ((usearch_run ref_seqs CLUSTER_THRESHOLD).1 = 0 ->
   r.2 = inr (IdList (rec_id <$>
                filter (fun i => rec_id i ∈ seed_ids ref_seqs CLUSTER_THRESHOLD)
                  ref_seqs))).
Proof.
  intros Hle r. subst r.
  destruct (decide ((usearch_run ref_seqs CLUSTER_THRESHOLD).1 = 0))
    as [E|E].
  - pose proof (cluster_zero _ _ E) as Hc.
    rewrite (select_early _ query_seqs keep threads mpi _ _ Hc).
    + by cbn.
    + pose proof (length_filter
                    (fun i => rec_id i ∈ seed_ids ref_seqs CLUSTER_THRESHOLD)
                    ref_seqs). lia.
  - unfold select_sequences_for_cluster.
    rewrite (bind_raise_eq _ _ _ _ (cluster_nonzero _ _ E)). by cbn.
Qed.

End SmallCluster.

Lemma small_cluster_skips_placement_witness :
  invoked (@select_sequences_for_cluster (demo_tools ["a"; "b"; "c"] [])
             abc [] 3 12 None).1 = [Usearch].
Proof.
  refine (proj1 (@small_cluster_skips_placement
                   (demo_tools ["a"; "b"; "c"] []) abc [] 3 12 None _)).
  vm_compute. discriminate.
Defined.
